(** * Chat proxy: conversation shaping, reply extraction, error normalisation

    A shallow embedding of [src/index.ts]: the pure function
    [buildModelInput] (sanitise, window, format) and the two halves of
    [handleChatRequest] that follow the remote call (extraction of the
    reply text, and the [catch] block that maps gateway errors to
    responses).

    Conventions of the embedding.
    - A JavaScript string is modelled as a [string] holding its UTF-8
      bytes.  Every comparison the program makes is against ASCII text,
      and an ASCII byte never occurs inside a multi-byte UTF-8 sequence,
      so substring and equality tests agree with the UTF-16 ones.
    - An array that the program grows with [push] and shrinks with [pop]
      is a [list] whose last element is the top.
    - A [Set<string>] is a [gset string]. *)

From Stdlib Require Import Ascii String List Bool Arith ZArith QArith Lia.
From stdpp Require Import base list strings gmap.

Local Open Scope string_scope.
Local Open Scope list_scope.

(** ** Text helpers *)

Definition LF : ascii := "010"%char.
Definition CR : ascii := "013"%char.

(** The separator ["\n\n"] of [join]. *)
Definition double_newline : string := String LF (String LF EmptyString).

(** ASCII case folding, the only folding [/.../i] performs on a pattern
    made of ASCII letters: without the [u] flag a code unit above 127
    never folds to one below 128. *)
Definition to_lower (c : ascii) : ascii :=
  let n := nat_of_ascii c in
  if (65 <=? n)%nat && (n <=? 90)%nat then ascii_of_nat (n + 32) else c.

Fixpoint starts_with_ci (pat s : string) : bool :=
  match pat, s with
  | EmptyString, _ => true
  | String _ _, EmptyString => false
  | String p pat', String c s' =>
      Ascii.eqb (to_lower p) (to_lower c) && starts_with_ci pat' s'
  end.

(** [/pat/i.test(s)] for a pattern of literal characters: does [s]
    contain [pat] up to ASCII case? *)
Fixpoint regex_test_ci (pat s : string) : bool :=
  starts_with_ci pat s
  || match s with
     | EmptyString => false
     | String _ s' => regex_test_ci pat s'
     end.

(** [Array.prototype.join]. *)
Fixpoint join (sep : string) (parts : list string) : string :=
  match parts with
  | [] => EmptyString
  | [x] => x
  | x :: rest => x +:+ sep +:+ join sep rest
  end.

(** The callback [Boolean] on a string: non-empty strings are truthy. *)
Definition truthy_string (s : string) : bool :=
  match s with
  | EmptyString => false
  | String _ _ => true
  end.

(** ** Messages ([types.ts]) *)

(** [ChatMessage].  The declaration lives in [types.ts]; the role is kept
    as the string it is at run time, since [buildModelInput] compares it
    with string literals and has a branch for roles that are neither
    ["user"] nor ["assistant"]. *)
Record ChatMessage : Type := mkMessage {
  role : string;
  content : string
}.

(** ** [buildModelInput] *)

Definition SYSTEM_PROMPT : string :=
  "You are a helpful, friendly assistant. Provide concise and accurate responses.".
Definition SAFETY_SHIM : string :=
  "If a user asks for illegal, violent, or harmful instructions, refuse briefly and suggest safer, educational alternatives.".

Definition instructions_text : string :=
  SYSTEM_PROMPT +:+ double_newline +:+ "Safety: " +:+ SAFETY_SHIM.

(** [looksLikeGuardrailNotice]; [typeof m.content === "string"] holds by
    the type of [content]. *)
Definition looksLikeGuardrailNotice (m : ChatMessage) : bool :=
  String.eqb (role m) "assistant"
  && regex_test_ci "blocked by guardrails" (content m).

(** [cleaned.length && cleaned[cleaned.length - 1].role === "user"] *)
Definition last_is_user {A : Type} (msg : A → ChatMessage) (cleaned : list A) : bool :=
  match last cleaned with
  | Some y => String.eqb (role (msg y)) "user"
  | None => false
  end.

Section Sanitizer.
(** The loop is written over entries [A] that carry a message, so the
    same code runs on bare messages ([msg := id]) and on messages
    paired with their position in [raw]: a JavaScript object has an
    identity, and the position stands for it where a property speaks
    about one particular entry rather than about its contents. *)
Context {A : Type} (msg : A → ChatMessage).
Variable blockedUserContents : gset string.

(** One iteration of the [for] loop, lines 53-76. *)
Definition sanitize_step (cleaned : list A) (x : A) : list A :=
  let m := msg x in
  if String.eqb (role m) "system" then cleaned
  else if String.eqb (role m) "user"
          && bool_decide (content m ∈ blockedUserContents) then cleaned
  else if looksLikeGuardrailNotice m then
    if last_is_user msg cleaned then removelast cleaned else cleaned
  else cleaned ++ [x].

(** The loop started from an accumulator. *)
Definition sanitize_from (cleaned : list A) (raw : list A) : list A :=
  fold_left sanitize_step raw cleaned.

(** [cleaned] after the loop, lines 51-77. *)
Definition sanitize (raw : list A) : list A := sanitize_from [] raw.
End Sanitizer.

(** An entry the loop appends: not a system message, not a blocked
    user message, not a guardrail notice. *)
Definition retained {A : Type} (msg : A → ChatMessage) (blocked : gset string) (x : A) : Prop :=
  String.eqb (role (msg x)) "system" = false
  ∧ (String.eqb (role (msg x)) "user" && bool_decide (content (msg x) ∈ blocked)) = false
  ∧ looksLikeGuardrailNotice (msg x) = false.

(** [raw] with each entry paired with its index. *)
Fixpoint indexed_from {A : Type} (start : nat) (l : list A) : list (nat * A) :=
  match l with
  | [] => []
  | x :: rest => (start, x) :: indexed_from (S start) rest
  end.
Definition indexed {A : Type} (l : list A) : list (nat * A) := indexed_from 0 l.

(** The positions of [raw] that survive into [cleaned]. *)
Definition kept_positions (blocked : gset string) (raw : list ChatMessage) : list nat :=
  (sanitize (A:=nat * ChatMessage) snd blocked (indexed raw)).*1.

(** [Array.prototype.slice(start)] for [0 <= start]. *)
Definition slice {A : Type} (start : nat) (l : list A) : list A := drop start l.

(** Lines 80-81. *)
Definition window (cleaned : list ChatMessage) : list ChatMessage :=
  if (16 <? length cleaned)%nat then slice (length cleaned - 16) cleaned else cleaned.

(** The callback of [map], lines 88-95. *)
Definition render (m : ChatMessage) : string :=
  if String.eqb (role m) "user" then "User: " +:+ content m
  else if String.eqb (role m) "assistant" then "Assistant: " +:+ content m
  else EmptyString.

(** Lines 84-97: the [input] of the model request. *)
Definition format_input (windowed : list ChatMessage) : string :=
  match windowed with
  | [m] =>
      if String.eqb (role m) "user" then content m
      else join double_newline (List.filter truthy_string (map render windowed))
  | _ => join double_newline (List.filter truthy_string (map render windowed))
  end.

Record ModelRequest : Type := mkRequest {
  instructions : string;
  input : string
}.

Definition buildModelInput (raw : list ChatMessage) (blockedUserContents : gset string)
  : ModelRequest :=
  let cleaned := sanitize id blockedUserContents raw in
  let windowed := window cleaned in
  {| instructions := instructions_text; input := format_input windowed |}.

(** ** JavaScript values

    The reply of the model, the thrown error and the result of
    [JSON.parse] are untyped in the source ([any], [unknown]); they are
    values of this type. *)

(** A number other than NaN (which neither a JSON text nor this program
    produces): a rational, or an infinity. *)
Inductive Number : Type :=
| Finite (q : Q)
| Infinite (negative : bool).

#[warnings="-register-all"] Inductive Value : Type :=
| VUndefined
| VNull
| VBool (b : bool)
| VNum (x : Number)
| VStr (s : string)
| VArr (items : list Value)
| VObj (fields : list (string * Value)).

(** Abrupt completion: [Throw e] is [throw e]. *)
Inductive Completion (A : Type) : Type :=
| Normal (a : A)
| Throw (e : Value).
Arguments Normal {A} a.
Arguments Throw {A} e.

#[global] Instance completion_ret : MRet Completion := λ A a, Normal a.
#[global] Instance completion_bind : MBind Completion := λ A B k c,
  match c with
  | Normal a => k a
  | Throw e => Throw e
  end.

(** [try { body } catch { handler }] *)
Definition try_catch {A : Type} (body : Completion A) (handler : Value → Completion A)
  : Completion A :=
  match body with
  | Normal a => Normal a
  | Throw e => handler e
  end.

(** An [Error] instance, as far as the program can see it: an object
    whose [message] is a string. *)
Definition ErrorObject (message : string) : Value := VObj [("message", VStr message)].

(** The message V8 gives to a property read on [null] or [undefined]. *)
Definition TypeError_read (what key : string) : Value :=
  ErrorObject ("Cannot read properties of " +:+ what +:+ " (reading '" +:+ key +:+ "')").

(** ToBoolean. *)
Definition truthy (v : Value) : bool :=
  match v with
  | VUndefined | VNull => false
  | VBool b => b
  | VNum (Finite q) => negb (Qeq_bool q 0)
  | VNum (Infinite _) => true
  | VStr s => truthy_string s
  | VArr _ | VObj _ => true
  end.

(** [v == null], the test of the optional chain [?.]. *)
Definition nullish (v : Value) : bool :=
  match v with
  | VUndefined | VNull => true
  | _ => false
  end.

(** [typeof v === "object"] ([null] included). *)
Definition typeof_object (v : Value) : bool :=
  match v with
  | VNull | VArr _ | VObj _ => true
  | _ => false
  end.

(** An own property of an object built by [JSON.parse] or by a literal:
    of two fields with one key the later wins. *)
Fixpoint lookup_field (key : string) (fields : list (string * Value)) : option Value :=
  match fields with
  | [] => None
  | (k, v) :: rest =>
      match lookup_field key rest with
      | Some w => Some w
      | None => if String.eqb k key then Some v else None
      end
  end.

(** [v.key] and [v[0]], for the keys the program reads: [output], [type],
    [content], [text], [response], [choices], [0], [message], [result],
    [error], [code].  None of them is defined on a built-in prototype, so
    on an array or a string only the index [0] finds anything, and on a
    number or a boolean nothing does.  Reading from [null] or
    [undefined] throws. *)
Definition getProp (v : Value) (key : string) : Completion Value :=
  match v with
  | VUndefined => Throw (TypeError_read "undefined" key)
  | VNull => Throw (TypeError_read "null" key)
  | VObj fields => Normal (default VUndefined (lookup_field key fields))
  | VArr items =>
      Normal (if String.eqb key "0" then default VUndefined (head items) else VUndefined)
  | VStr s =>
      Normal (if String.eqb key "0"
              then match s with
                   | String c _ => VStr (String c EmptyString)
                   | EmptyString => VUndefined
                   end
              else VUndefined)
  | VBool _ | VNum _ => Normal VUndefined
  end.

(** [v === "tag"] *)
Definition strict_eq_string (v : Value) (tag : string) : bool :=
  match v with
  | VStr s => String.eqb s tag
  | _ => false
  end.

(** [v === n] for an integer literal [n]. *)
Definition strict_eq_number (v : Value) (n : Z) : bool :=
  match v with
  | VNum (Finite q) => Qeq_bool q (inject_Z n)
  | _ => false
  end.

(** [items.find((item) => item.type === tag)]: the first entry whose
    [type] is [tag], [undefined] if there is none.  The callback reads
    [item.type] on every entry up to the one found, and that read throws
    on [null]. *)
Fixpoint find_by_type (tag : string) (items : list Value) : Completion Value :=
  match items with
  | [] => Normal VUndefined
  | item :: rest =>
      t ← getProp item "type";
      if strict_eq_string t tag then Normal item else find_by_type tag rest
  end.

(** ** [handleChatRequest]: extraction of the response text *)

Definition FALLBACK_TEXT : string := "Error: Could not parse AI response".

(** Lines 165-174: [responseText] after the GPT-OSS block; it stays the
    empty string unless the block assigns it.  [resp.output &&
    Array.isArray(resp.output)] holds exactly of an array. *)
Definition extract_output_text (resp : Value) : Completion Value :=
  output ← getProp resp "output";
  match output with
  | VArr entries =>
      messageOutput ← find_by_type "message" entries;
      if truthy messageOutput then
        content ← getProp messageOutput "content";
        match content with
        | VArr parts =>
            textContent ← find_by_type "output_text" parts;
            if truthy textContent then
              text ← getProp textContent "text";
              if truthy text then Normal text else Normal (VStr EmptyString)
            else Normal (VStr EmptyString)
        | _ => Normal (VStr EmptyString)
        end
      else Normal (VStr EmptyString)
  | _ => Normal (VStr EmptyString)
  end.

(** [resp.choices && resp.choices[0]?.message?.content] *)
Definition chat_completion_content (resp : Value) : Completion Value :=
  choices ← getProp resp "choices";
  if truthy choices then
    first ← getProp choices "0";
    if nullish first then Normal VUndefined
    else
      message ← getProp first "message";
      if nullish message then Normal VUndefined else getProp message "content"
  else Normal choices.

(** [resp.result && resp.result.response] *)
Definition nested_result_response (resp : Value) : Completion Value :=
  result ← getProp resp "result";
  if truthy result then getProp result "response" else Normal result.

(** Lines 177-190, entered when [responseText] is still falsy.  The call
    of [console.error] has no effect on the response and is left out. *)
Definition extract_fallback (resp : Value) : Completion Value :=
  response ← getProp resp "response";
  if truthy response then Normal response
  else
    content ← getProp resp "content";
    if truthy content then Normal content
    else
      chat ← chat_completion_content resp;
      if truthy chat then Normal chat
      else
        nested ← nested_result_response resp;
        if truthy nested then Normal nested
        else Normal (VStr FALLBACK_TEXT).

(** Lines 157-191: the final value of [responseText]. *)
Definition extractResponseText (aiResponse : Value) : Completion Value :=
  match aiResponse with
  | VStr s => Normal (VStr s)
  | _ =>
      if truthy aiResponse && typeof_object aiResponse then
        responseText ← extract_output_text aiResponse;
        if negb (truthy responseText) then extract_fallback aiResponse
        else Normal responseText
      else Normal (VStr EmptyString)
  end.

(** ** Responses *)

(** A [Response]: the body is the object handed to [JSON.stringify]. *)
Record Response : Type := mkResponse {
  status : Z;
  headers : list (string * string);
  body : Value
}.

Definition AI_GATEWAY_ID : string := "gpt-oss-gateway".

(** Lines 194-203. *)
Definition success_response (responseText : Value) : Response :=
  {| status := 200;
     headers := [("Content-Type", "application/json")];
     body := VObj [("response", responseText); ("success", VBool true)] |}.

(** Lines 226-239. *)
Definition prompt_blocked_response : Response :=
  {| status := 400;
     headers := [("Content-Type", "application/json")];
     body := VObj
       [("error", VStr "Prompt Blocked by Security Policy");
        ("errorType", VStr "prompt_blocked");
        ("details", VStr
           (if truthy_string AI_GATEWAY_ID
            then "Your message was blocked by your organization's AI Gateway security policy. This may be due to content that violates safety guidelines including: hate speech, violence, self-harm, explicit content, or other harmful material."
            else "Your message was blocked due to security policy."));
        ("usingGateway", VBool (truthy_string AI_GATEWAY_ID))] |}.

(** Lines 241-254. *)
Definition response_blocked_response : Response :=
  {| status := 400;
     headers := [("Content-Type", "application/json")];
     body := VObj
       [("error", VStr "Response Blocked by Security Policy");
        ("errorType", VStr "response_blocked");
        ("details", VStr
           (if truthy_string AI_GATEWAY_ID
            then "The AI's response was blocked by your organization's AI Gateway security policy. The model attempted to generate content that violates safety guidelines. Please rephrase your question or try a different topic."
            else "The AI's response was blocked due to security policy."));
        ("usingGateway", VBool (truthy_string AI_GATEWAY_ID))] |}.

(** Lines 258-261. *)
Definition generic_failure_response : Response :=
  {| status := 500;
     headers := [("content-type", "application/json")];
     body := VObj [("error", VStr "Failed to process request")] |}.

(** ** [String.prototype.match(/\{.*\}/)] *)

Definition DQ : ascii := "034"%char.
Definition BACKSLASH : ascii := "092"%char.

(** Does the text start with a line terminator?  These are the code
    units [.] refuses: LF, CR, and U+2028 and U+2029, whose UTF-8 forms
    are the bytes 226 128 168 and 226 128 169. *)
Definition starts_line_terminator (s : string) : bool :=
  match s with
  | EmptyString => false
  | String c rest =>
      Ascii.eqb c LF || Ascii.eqb c CR
      || (Ascii.eqb c "226"
          && match rest with
             | String c2 (String c3 _) =>
                 Ascii.eqb c2 "128" && (Ascii.eqb c3 "168" || Ascii.eqb c3 "169")
             | _ => false
             end)
  end.

(** The longest text [.*] can consume: everything up to the first line
    terminator. *)
Fixpoint dot_star (s : string) : string :=
  match s with
  | EmptyString => EmptyString
  | String c rest =>
      if starts_line_terminator s then EmptyString else String c (dot_star rest)
  end.

(** The longest prefix of [s] that ends with the character [c]: where a
    greedy [.*] followed by [c] stops after backtracking. *)
Fixpoint upto_last (c : ascii) (s : string) : option string :=
  match s with
  | EmptyString => None
  | String x rest =>
      match upto_last c rest with
      | Some p => Some (String x p)
      | None => if Ascii.eqb x c then Some (String x EmptyString) else None
      end
  end.

(** [message.match(/\{.*\}/)], reduced to element [0] of its result: the
    match at the leftmost position where one exists. *)
Fixpoint match_braces (s : string) : option string :=
  match s with
  | EmptyString => None
  | String c rest =>
      if Ascii.eqb c "{" then
        match upto_last "}" (dot_star rest) with
        | Some inner => Some (String c inner)
        | None => match_braces rest
        end
      else match_braces rest
  end.

(** ** [JSON.parse]

    A reader for the JSON grammar (ECMA-404).  It returns the value read
    and the text left over. *)

Definition is_ws (c : ascii) : bool :=
  Ascii.eqb c " " || Ascii.eqb c "009" || Ascii.eqb c LF || Ascii.eqb c CR.

Fixpoint skip_ws (s : string) : string :=
  match s with
  | String c rest => if is_ws c then skip_ws rest else s
  | EmptyString => s
  end.

Definition digit_value (c : ascii) : option Z :=
  let n := nat_of_ascii c in
  if (48 <=? n)%nat && (n <=? 57)%nat then Some (Z.of_nat (n - 48)) else None.

Definition hex_value (c : ascii) : option Z :=
  let n := nat_of_ascii c in
  if (48 <=? n)%nat && (n <=? 57)%nat then Some (Z.of_nat (n - 48))
  else if (65 <=? n)%nat && (n <=? 70)%nat then Some (Z.of_nat (n - 55))
  else if (97 <=? n)%nat && (n <=? 102)%nat then Some (Z.of_nat (n - 87))
  else None.

(** Reads a run of decimal digits: the number they spell after the
    digits already read ([acc]), how many were read, and the rest. *)
Fixpoint read_digits (acc : Z) (count : nat) (s : string) : Z * nat * string :=
  match s with
  | String c rest =>
      match digit_value c with
      | Some d => read_digits (10 * acc + d) (S count) rest
      | None => (acc, count, s)
      end
  | EmptyString => (acc, count, s)
  end.

(** The rational [mantissa * 10 ^ exponent]. *)
Definition decimal (mantissa exponent : Z) : Q :=
  if (0 <=? exponent)%Z then inject_Z (mantissa * 10 ^ exponent)
  else Qmake mantissa (Z.to_pos (10 ^ (- exponent))).

(** [num / den] rounded to the nearest integer, ties to the even one
    ([0 < den]). *)
Definition round_half_even (num den : Z) : Z :=
  let q := (num / den)%Z in
  match (2 * (num mod den) ?= den)%Z with
  | Lt => q
  | Gt => (q + 1)%Z
  | Eq => if Z.even q then q else (q + 1)%Z
  end.

(** The [e] with [2 ^ e <= p / q < 2 ^ (e + 1)] ([0 < p], [0 < q]). *)
Definition floor_log2 (p q : Z) : Z :=
  let k := (Z.log2 p - Z.log2 q)%Z in
  let reached :=
    if (0 <=? k)%Z then (q * 2 ^ k <=? p)%Z else (q <=? p * 2 ^ (- k))%Z in
  if reached then k else (k - 1)%Z.

(** The binary64 number nearest to a rational, as [JSON.parse] reads a
    literal: 53 significant bits, exponents from -1022 (below which the
    spacing stays [2 ^ -1074]), ties to even, and an infinity from
    [2 ^ 1024 - 2 ^ 970] on. *)
Definition binary64 (x : Q) : Number :=
  let p := Z.abs (Qnum x) in
  let q := Zpos (Qden x) in
  if (p =? 0)%Z then Finite 0
  else
    let negative := (Qnum x <? 0)%Z in
    let t := (Z.max (floor_log2 p q) (-1022) - 52)%Z in
    let m :=
      if (0 <=? t)%Z then round_half_even p (q * 2 ^ t)
      else round_half_even (p * 2 ^ (- t)) q in
    let signed := if negative then (- m)%Z else m in
    if (0 <=? t)%Z then
      if (2 ^ 1024 <=? m * 2 ^ t)%Z then Infinite negative
      else Finite (inject_Z (signed * 2 ^ t))
    else Finite (Qred (Qmake signed (Z.to_pos (2 ^ (- t))))).

(** [-? int frac? exp?] where [int] has no superfluous leading zero. *)
Definition parse_number (s : string) : option (Number * string) :=
  let '(negative, s1) :=
    match s with
    | String c rest => if Ascii.eqb c "-" then (true, rest) else (false, s)
    | EmptyString => (false, s)
    end in
  let '(int_part, int_count, s2) :=
    match s1 with
    | String c rest => if Ascii.eqb c "0" then (0%Z, 1%nat, rest) else read_digits 0 0 s1
    | EmptyString => (0%Z, 0%nat, s1)
    end in
  if (int_count =? 0)%nat then None
  else
    let with_fraction :=
      match s2 with
      | String c rest =>
          if Ascii.eqb c "." then
            let '(m, n, s3) := read_digits int_part 0 rest in
            if (n =? 0)%nat then None else Some (m, Z.of_nat n, s3)
          else Some (int_part, 0%Z, s2)
      | EmptyString => Some (int_part, 0%Z, s2)
      end in
    match with_fraction with
    | None => None
    | Some (mantissa, fraction_digits, s3) =>
        let signed := if negative then (- mantissa)%Z else mantissa in
        match s3 with
        | String c rest =>
            if Ascii.eqb c "e" || Ascii.eqb c "E" then
              let '(exp_negative, s4) :=
                match rest with
                | String c' rest' =>
                    if Ascii.eqb c' "-" then (true, rest')
                    else if Ascii.eqb c' "+" then (false, rest')
                    else (false, rest)
                | EmptyString => (false, rest)
                end in
              let '(e, n, s5) := read_digits 0 0 s4 in
              if (n =? 0)%nat then None
              else
                let exponent := if exp_negative then (- e)%Z else e in
                Some (binary64 (decimal signed (exponent - fraction_digits)), s5)
            else Some (binary64 (decimal signed (- fraction_digits)), s3)
        | EmptyString => Some (binary64 (decimal signed (- fraction_digits)), s3)
        end
    end.

(** What a string literal contributes: a byte written as it is, or the
    UTF-16 code unit of a [\uXXXX] escape. *)
Inductive StringItem : Type :=
| RawByte (c : ascii)
| CodeUnit (n : Z).

(** The text after the opening quote, up to the closing one. *)
Fixpoint read_string_items (s : string) : option (list StringItem * string) :=
  match s with
  | EmptyString => None
  | String c rest =>
      if Ascii.eqb c DQ then Some ([], rest)
      else if (nat_of_ascii c <? 32)%nat then None
      else if Ascii.eqb c BACKSLASH then
        match rest with
        | String e rest1 =>
            let simple (x : ascii) :=
              match read_string_items rest1 with
              | Some (items, r) => Some (RawByte x :: items, r)
              | None => None
              end in
            if Ascii.eqb e DQ then simple DQ
            else if Ascii.eqb e BACKSLASH then simple BACKSLASH
            else if Ascii.eqb e "/" then simple "/"%char
            else if Ascii.eqb e "b" then simple "008"%char
            else if Ascii.eqb e "f" then simple "012"%char
            else if Ascii.eqb e "n" then simple LF
            else if Ascii.eqb e "r" then simple CR
            else if Ascii.eqb e "t" then simple "009"%char
            else if Ascii.eqb e "u" then
              match rest1 with
              | String h1 (String h2 (String h3 (String h4 rest2))) =>
                  match hex_value h1, hex_value h2, hex_value h3, hex_value h4 with
                  | Some a, Some b, Some c', Some d =>
                      match read_string_items rest2 with
                      | Some (items, r) =>
                          Some (CodeUnit (((a * 16 + b) * 16 + c') * 16 + d) :: items, r)
                      | None => None
                      end
                  | _, _, _, _ => None
                  end
              | _ => None
              end
            else None
        | EmptyString => None
        end
      else
        match read_string_items rest with
        | Some (items, r) => Some (RawByte c :: items, r)
        | None => None
        end
  end.

Definition byte_of_Z (n : Z) : ascii := ascii_of_nat (Z.to_nat n).

(** UTF-8 of a code point (of a lone surrogate too, in the same way). *)
Definition utf8 (cp : Z) : list ascii :=
  if (cp <? 128)%Z then [byte_of_Z cp]
  else if (cp <? 2048)%Z then
    [byte_of_Z (192 + cp / 64); byte_of_Z (128 + cp mod 64)]
  else if (cp <? 65536)%Z then
    [byte_of_Z (224 + cp / 4096); byte_of_Z (128 + (cp / 64) mod 64);
     byte_of_Z (128 + cp mod 64)]
  else
    [byte_of_Z (240 + cp / 262144); byte_of_Z (128 + (cp / 4096) mod 64);
     byte_of_Z (128 + (cp / 64) mod 64); byte_of_Z (128 + cp mod 64)].

Definition is_high_surrogate (n : Z) : bool := (55296 <=? n)%Z && (n <=? 56319)%Z.
Definition is_low_surrogate (n : Z) : bool := (56320 <=? n)%Z && (n <=? 57343)%Z.

(** The bytes of the string a literal denotes; a surrogate pair is one
    code point. *)
Fixpoint encode_items (items : list StringItem) : list ascii :=
  match items with
  | [] => []
  | RawByte c :: rest => c :: encode_items rest
  | CodeUnit hi :: rest =>
      match rest with
      | CodeUnit lo :: rest' =>
          if is_high_surrogate hi && is_low_surrogate lo
          then utf8 (65536 + (hi - 55296) * 1024 + (lo - 56320)) ++ encode_items rest'
          else utf8 hi ++ encode_items rest
      | _ => utf8 hi ++ encode_items rest
      end
  end.

Definition parse_string (s : string) : option (string * string) :=
  match read_string_items s with
  | Some (items, rest) => Some (string_of_list_ascii (encode_items items), rest)
  | None => None
  end.

(** If [s] starts with the word, what follows it. *)
Fixpoint strip_prefix (word s : string) : option string :=
  match word, s with
  | EmptyString, _ => Some s
  | String _ _, EmptyString => None
  | String w word', String c s' => if Ascii.eqb w c then strip_prefix word' s' else None
  end.

(** Values, array elements and object members.  The fuel bounds the
    depth of the recursion; [JSON_parse] supplies more than any text of
    that length can use. *)
Fixpoint parse_value (fuel : nat) (s : string) : option (Value * string) :=
  match fuel with
  | O => None
  | S fuel' =>
      match skip_ws s with
      | EmptyString => None
      | String c rest as text =>
          if Ascii.eqb c "{" then
            match skip_ws rest with
            | String c' rest' =>
                if Ascii.eqb c' "}" then Some (VObj [], rest')
                else
                  match parse_members fuel' rest with
                  | Some (fields, r) => Some (VObj fields, r)
                  | None => None
                  end
            | EmptyString => None
            end
          else if Ascii.eqb c "[" then
            match skip_ws rest with
            | String c' rest' =>
                if Ascii.eqb c' "]" then Some (VArr [], rest')
                else
                  match parse_elements fuel' rest with
                  | Some (items, r) => Some (VArr items, r)
                  | None => None
                  end
            | EmptyString => None
            end
          else if Ascii.eqb c DQ then
            match parse_string rest with
            | Some (str, r) => Some (VStr str, r)
            | None => None
            end
          else
            match strip_prefix "true" text, strip_prefix "false" text, strip_prefix "null" text with
            | Some r, _, _ => Some (VBool true, r)
            | _, Some r, _ => Some (VBool false, r)
            | _, _, Some r => Some (VNull, r)
            | None, None, None =>
                match parse_number text with
                | Some (x, r) => Some (VNum x, r)
                | None => None
                end
            end
      end
  end
with parse_elements (fuel : nat) (s : string) : option (list Value * string) :=
  match fuel with
  | O => None
  | S fuel' =>
      match parse_value fuel' s with
      | None => None
      | Some (v, rest) =>
          match skip_ws rest with
          | String c rest' =>
              if Ascii.eqb c "," then
                match parse_elements fuel' rest' with
                | Some (vs, r) => Some (v :: vs, r)
                | None => None
                end
              else if Ascii.eqb c "]" then Some ([v], rest')
              else None
          | EmptyString => None
          end
      end
  end
with parse_members (fuel : nat) (s : string) : option (list (string * Value) * string) :=
  match fuel with
  | O => None
  | S fuel' =>
      match skip_ws s with
      | String q rest =>
          if Ascii.eqb q DQ then
            match parse_string rest with
            | None => None
            | Some (key, rest1) =>
                match skip_ws rest1 with
                | String colon rest2 =>
                    if Ascii.eqb colon ":" then
                      match parse_value fuel' rest2 with
                      | None => None
                      | Some (v, rest3) =>
                          match skip_ws rest3 with
                          | String c rest4 =>
                              if Ascii.eqb c "," then
                                match parse_members fuel' rest4 with
                                | Some (fields, r) => Some ((key, v) :: fields, r)
                                | None => None
                                end
                              else if Ascii.eqb c "}" then Some ([(key, v)], rest4)
                              else None
                          | EmptyString => None
                          end
                      end
                    else None
                | EmptyString => None
                end
            end
          else None
      | EmptyString => None
      end
  end.

Definition SyntaxError : Value := ErrorObject "Unexpected token in JSON".

(** [JSON.parse(text)]: one value, white space around it, nothing else;
    a [SyntaxError] otherwise. *)
Definition JSON_parse (text : string) : Completion Value :=
  match parse_value (2 * String.length text + 2) text with
  | Some (v, rest) =>
      match skip_ws rest with
      | EmptyString => Normal v
      | String _ _ => Throw SyntaxError
      end
  | None => Throw SyntaxError
  end.

(** ** [handleChatRequest]: the [catch] block *)

(** The body of the inner [try], lines 214-220: the value assigned to
    [gatewayError], which is [null] before. *)
Definition embedded_gateway_error (message : string) : Completion Value :=
  match match_braces message with
  | None => Normal VNull
  | Some jsonMatch =>
      parsed ← JSON_parse jsonMatch;
      error ← getProp parsed "error";
      match error with
      | VArr _ => getProp error "0"
      | _ => Normal VNull
      end
  end.

(** Lines 211-223: [gatewayError] after the inner [try]/[catch], whose
    handler is empty. *)
Definition gateway_error_of (errorObj : Value) : Completion Value :=
  message ← getProp errorObj "message";
  match message with
  | VStr text =>
      if truthy message
      then try_catch (embedded_gateway_error text) (λ _, Normal VNull)
      else Normal VNull
  | _ => Normal VNull
  end.

(** [gatewayError && gatewayError.code === n] *)
Definition has_code (gatewayError : Value) (n : Z) : Completion bool :=
  if truthy gatewayError then
    code ← getProp gatewayError "code";
    Normal (strict_eq_number code n)
  else Normal false.

(** Lines 205-261. *)
Definition handle_error (error : Value) : Completion Response :=
  if truthy error && typeof_object error then
    gatewayError ← gateway_error_of error;
    prompt ← has_code gatewayError 2016;
    if (prompt : bool) then Normal prompt_blocked_response
    else
      response ← has_code gatewayError 2017;
      if (response : bool) then Normal response_blocked_response
      else Normal generic_failure_response
  else Normal generic_failure_response.

(** ** [handleChatRequest] *)

(** [IncomingBody] after [request.json()]; an absent field, or one that
    is not an array, is [None]. *)
Record IncomingBody : Type := mkBody {
  messages : option (list ChatMessage);
  blockedUserContents_field : option (list string)
}.

(** Lines 130-135: the [input] computed from the request body. *)
Definition model_input (raw : IncomingBody) : string :=
  let msgs := default [] (messages raw) in
  let blocked : gset string := list_to_set (default [] (blockedUserContents_field raw)) in
  input (buildModelInput msgs blocked).

(** Lines 129-203, the [try] block.  The remote call
    [env.AI.run(MODEL_ID, { input }, runOptions)] is a parameter: it maps
    the input text to a reply or throws. *)
Definition try_block
    (request_json : Completion IncomingBody)
    (AI_run : string → Completion Value) : Completion Response :=
  raw ← request_json;
  aiResponse ← AI_run (model_input raw);
  responseText ← extractResponseText aiResponse;
  Normal (success_response responseText).

Definition handleChatRequest
    (request_json : Completion IncomingBody)
    (AI_run : string → Completion Value) : Completion Response :=
  try_catch (try_block request_json AI_run) handle_error.

(** ** Sample data *)

Definition U (c : string) := mkMessage "user" c.
Definition Asst (c : string) := mkMessage "assistant" c.
Definition Sys (c : string) := mkMessage "system" c.

Definition quoted (s : string) : string := String DQ (s +:+ String DQ EmptyString).

(** The text [{"error":[{"code":<code>,"message":"x"}]}]. *)
Definition gateway_fragment (code : string) : string :=
  "{" +:+ quoted "error" +:+ ":[{" +:+ quoted "code" +:+ ":" +:+ code +:+ ","
  +:+ quoted "message" +:+ ":" +:+ quoted "x" +:+ "}]}".

(** ** The formatter in the words of the specification

    Each entry is rendered as ["User: <content>"] or
    ["Assistant: <content>"]; an entry of any other role has no
    rendering and is dropped; the renderings are joined with a blank
    line between them. *)
Definition rendering (m : ChatMessage) : option string :=
  if String.eqb (role m) "user" then Some ("User: " +:+ content m)
  else if String.eqb (role m) "assistant" then Some ("Assistant: " +:+ content m)
  else None.

Definition transcript (windowed : list ChatMessage) : string :=
  join double_newline (omap rendering windowed).

(** The history is one user entry and nothing else. *)
Definition single_user_turn (windowed : list ChatMessage) : Prop :=
  ∃ m, windowed = [m] ∧ role m = "user".

(** The history has an entry that the transcript shows. *)
Definition speaks (m : ChatMessage) : Prop :=
  role m = "user" ∨ role m = "assistant".

(** The guardrail notice used in the examples. *)
Definition sample_notice : ChatMessage :=
  Asst "Sorry, this request was Blocked by Guardrails.".

(** ** The reply shapes in the words of the specification (section 4.5) *)

(** A field of a value, [undefined] where there is none; nothing is
    read from [null]. *)
Definition field (v : Value) (key : string) : Value :=
  match getProp v key with
  | Normal x => x
  | Throw _ => VUndefined
  end.

(** The entry's discriminant marks it as [tag]. *)
Definition marked (tag : string) (entry : Value) : bool :=
  strict_eq_string (field entry "type") tag.

(** Shape 2: the reply has an [output] list; its first entry marked
    ["message"] has a [content] list; the first entry of that marked
    ["output_text"] has the [text]. *)
Definition output_text (reply : Value) : Value :=
  match field reply "output" with
  | VArr entries =>
      match List.find (marked "message") entries with
      | Some message =>
          match field message "content" with
          | VArr parts =>
              match List.find (marked "output_text") parts with
              | Some part => field part "text"
              | None => VUndefined
              end
          | _ => VUndefined
          end
      | None => VUndefined
      end
  | _ => VUndefined
  end.

(** Shapes 3 to 6. *)
Definition response_field (reply : Value) : Value := field reply "response".
Definition content_field (reply : Value) : Value := field reply "content".
Definition chat_content (reply : Value) : Value :=
  field (field (field (field reply "choices") "0") "message") "content".
Definition result_response (reply : Value) : Value :=
  field (field reply "result") "response".

(** What shapes 2 to 6 find in a reply, in their order of precedence. *)
Definition candidates (reply : Value) : list Value :=
  [output_text reply; response_field reply; content_field reply;
   chat_content reply; result_response reply].

(** The first candidate that yields something, the fallback text if
    none does. *)
Definition first_yield (reply : Value) : Value :=
  default (VStr FALLBACK_TEXT) (List.find truthy (candidates reply)).

(** The reply is an object (an array is one). *)
Definition is_object (reply : Value) : Prop :=
  match reply with
  | VObj _ | VArr _ => True
  | _ => False
  end.

(** The reply is neither a string nor an object. *)
Definition neither_string_nor_object (reply : Value) : Prop :=
  match reply with
  | VStr _ | VObj _ | VArr _ => False
  | _ => True
  end.

(** The search for the first entry marked [tag] meets no [null]: none
    comes before that entry, or anywhere if no entry is marked. *)
Fixpoint search_meets_no_null (tag : string) (items : list Value) : bool :=
  match items with
  | [] => true
  | item :: rest =>
      negb (nullish item) && (marked tag item || search_meets_no_null tag rest)
  end.

(** Neither the search of the [output] list for a message entry nor the
    search of that entry's [content] list for an [output_text] entry
    meets a [null]. *)
Definition entries_present (reply : Value) : bool :=
  match field reply "output" with
  | VArr entries =>
      search_meets_no_null "message" entries
      && match List.find (marked "message") entries with
         | Some message =>
             match field message "content" with
             | VArr parts => search_meets_no_null "output_text" parts
             | _ => true
             end
         | None => true
         end
  | _ => true
  end.

(** The looser reading of shape 2: some message entry of the [output]
    list has some [output_text] entry with this text. *)
Definition some_output_text (reply : Value) (text : Value) : Prop :=
  ∃ entries message parts part,
    field reply "output" = VArr entries
    ∧ message ∈ entries ∧ marked "message" message = true
    ∧ field message "content" = VArr parts
    ∧ part ∈ parts ∧ marked "output_text" part = true
    ∧ field part "text" = text.

(** Sample replies. *)
Definition text_part (text : string) : Value :=
  VObj [("type", VStr "output_text"); ("text", VStr text)].
Definition message_entry (parts : list Value) : Value :=
  VObj [("type", VStr "message"); ("content", VArr parts)].
Definition reasoning_entry : Value := VObj [("type", VStr "reasoning")].

Definition reply_two_messages : Value :=
  VObj [("output", VArr [message_entry []; message_entry [text_part "A"]]);
        ("response", VStr "B")].
Definition reply_both_shapes : Value :=
  VObj [("output", VArr [reasoning_entry; message_entry [text_part "A"]; VNull]);
        ("response", VStr "B")].
Definition reply_unknown_shape : Value :=
  VObj [("output", VArr [reasoning_entry]); ("usage", VNum (Finite 3))].

Definition reply_null_entry : Value :=
  VObj [("output", VArr [VNull; message_entry [text_part "A"]]);
        ("response", VStr "B")].

Definition empty_request : IncomingBody := mkBody None None.

(** ** The error normaliser in the words of the specification (section 4.6) *)

(** The text occurs somewhere in the message. *)
Definition contains (needle text : string) : Prop :=
  ∃ before after, text = before +:+ needle +:+ after.

Fixpoint occurs (c : ascii) (s : string) : bool :=
  match s with
  | EmptyString => false
  | String x rest => Ascii.eqb x c || occurs c rest
  end.

(** No line terminator starts in this text, whatever follows it. *)
Fixpoint plain_line (s : string) : bool :=
  match s with
  | EmptyString => true
  | String c rest =>
      negb (Ascii.eqb c LF) && negb (Ascii.eqb c CR) && negb (Ascii.eqb c "226")
      && plain_line rest
  end.

(** The gateway error descriptor: the first entry of the [error] list of
    the parsed JSON, if it has one. *)
Definition descriptor (parsed : Value) : Value :=
  match field parsed "error" with
  | VArr (first :: _) => first
  | _ => VNull
  end.

(** The code of the descriptor embedded in a message; [None] when the
    message embeds no JSON object that parses. *)
Definition embedded_code (message : string) : option Value :=
  match match_braces message with
  | None => None
  | Some text =>
      match JSON_parse text with
      | Normal parsed => Some (field (descriptor parsed) "code")
      | Throw _ => None
      end
  end.

(** The response is a structured error with this status, label and kind. *)
Definition blocked_with (c : Completion Response) (code : Z) (label kind : string) : Prop :=
  ∃ r, c = Normal r ∧ status r = code
       ∧ field (body r) "error" = VStr label
       ∧ field (body r) "errorType" = VStr kind.

(** The response is the generic failure. *)
Definition generic_failure (c : Completion Response) : Prop :=
  ∃ r, c = Normal r ∧ status r = 500%Z
       ∧ body r = VObj [("error", VStr "Failed to process request")].

(** The text between the outer braces of [gateway_fragment code]. *)
Definition gateway_fragment_inner (code : string) : string :=
  quoted "error" +:+ ":[{" +:+ quoted "code" +:+ ":" +:+ code +:+ ","
  +:+ quoted "message" +:+ ":" +:+ quoted "x" +:+ "}]".

(** Sample failures. *)
Definition failure_2016 : Value :=
  ErrorObject ("AiError: " +:+ gateway_fragment "2016" +:+ " (request 7)").
Definition failure_2017 : Value :=
  ErrorObject ("AiError: " +:+ gateway_fragment "2017").
Definition failure_2018 : Value :=
  ErrorObject ("AiError: " +:+ gateway_fragment "2018").
Definition failure_trailing_braces : Value :=
  ErrorObject ("AiError: " +:+ gateway_fragment "2016" +:+ " (trace {7})").

(** Sample histories for the window. *)
Definition short_history : list ChatMessage := [U "m1"; Asst "m2"; U "m3"].
Definition long_history : list ChatMessage :=
  [U "m1"; Asst "m2"; U "m3"; Asst "m4"; U "m5"; Asst "m6"; U "m7"; Asst "m8";
   U "m9"; Asst "m10"; U "m11"; Asst "m12"; U "m13"; Asst "m14"; U "m15";
   Asst "m16"; U "m17"].

(** ** [parseGatewayError] *)

(** [arr && arr.length && typeof arr[0] === "object"] for the [arr] that
    [Array.isArray(v) ? v : undefined] leaves, and then the returned
    [{ code: arr[0].code, message: arr[0].message }]; [None] when the
    test fails.  [typeof null] is ["object"], so a [null] first entry
    passes the test and the reads that follow throw. *)
Definition descriptor_of_list (v : Value) : Completion (option Value) :=
  match v with
  | VArr items =>
      let first := default VUndefined (head items) in
      if negb (length items =? 0)%nat && typeof_object first then
        code ← getProp first "code";
        message ← getProp first "message";
        Normal (Some (VObj [("code", code); ("message", message)]))
      else Normal None
  | _ => Normal None
  end.

(** [typeof v === "string" ? { message: v } : nothing] *)
Definition message_of_string (v : Value) : option Value :=
  match v with
  | VStr s => Some (VObj [("message", VStr s)])
  | _ => None
  end.

(** Lines 105-120, the body of the [try]: [Some] is a [return], [None]
    is falling out of the block.  The keys [errors] and [detail] are not
    defined on a built-in prototype either. *)
Definition parseGatewayError_try (body : Value) : Completion (option Value) :=
  if truthy body && typeof_object body then
    error ← getProp body "error";
    from_error ← descriptor_of_list error;
    match from_error with
    | Some found => Normal (Some found)
    | None =>
        errors ← getProp body "errors";
        from_errors ← descriptor_of_list errors;
        match from_errors with
        | Some found => Normal (Some found)
        | None =>
            error_text ← getProp body "error";
            match message_of_string error_text with
            | Some found => Normal (Some found)
            | None =>
                message ← getProp body "message";
                match message_of_string message with
                | Some found => Normal (Some found)
                | None =>
                    detail ← getProp body "detail";
                    Normal (message_of_string detail)
                end
            end
        end
    end
  else Normal None.

(** Lines 103-124: the [catch] is empty, and [{}] is returned after it. *)
Definition parseGatewayError (body : Value) : Value :=
  match try_catch (parseGatewayError_try body) (λ _, Normal None) with
  | Normal (Some found) => found
  | _ => VObj []
  end.

(** ** [fetch] *)

(** Lines 35 and 40: a text body is the [VStr] itself, and no header is
    given. *)
Definition method_not_allowed_response : Response :=
  {| status := 405; headers := []; body := VStr "Method not allowed" |}.
Definition not_found_response : Response :=
  {| status := 404; headers := []; body := VStr "Not found" |}.

(** Lines 24-41.  [pathname] is [new URL(request.url).pathname], [method]
    is [request.method], and [ASSETS_fetch] is what
    [env.ASSETS.fetch(request)] gives. *)
Definition fetch (pathname method : string) (ASSETS_fetch : Completion Response)
    (request_json : Completion IncomingBody)
    (AI_run : string → Completion Value) : Completion Response :=
  if String.eqb pathname "/" || negb (String.prefix "/api/" pathname) then ASSETS_fetch
  else if String.eqb pathname "/api/chat" then
    if negb (String.eqb method "POST") then Normal method_not_allowed_response
    else handleChatRequest request_json AI_run
  else Normal not_found_response.

(** ** Vocabulary of the further properties *)

(** The messages the loop skips whatever the accumulator holds. *)
Definition skipped (blocked : gset string) (m : ChatMessage) : bool :=
  String.eqb (role m) "system"
  || (String.eqb (role m) "user" && bool_decide (content m ∈ blocked)).

(** How many user entries the history ends with. *)
Fixpoint leading_users (l : list ChatMessage) : nat :=
  match l with
  | m :: rest => if String.eqb (role m) "user" then S (leading_users rest) else 0
  | [] => 0
  end.
Definition trailing_users (cleaned : list ChatMessage) : nat :=
  leading_users (reverse cleaned).

(** What the [catch] block answers to a failure whose message is
    [message], read off the code embedded in it. *)
Definition answer_for_code (code : option Value) : Response :=
  match code with
  | Some c =>
      if strict_eq_number c 2016 then prompt_blocked_response
      else if strict_eq_number c 2017 then response_blocked_response
      else generic_failure_response
  | None => generic_failure_response
  end.

(** The first entry of a list that passes [parseGatewayError]'s test:
    the list is not empty and its first entry has type ["object"]. *)
Definition usable_first (v : Value) : option Value :=
  match v with
  | VArr (first :: _) => if typeof_object first then Some first else None
  | _ => None
  end.

(** The entry [parseGatewayError] reads the code from: the first of
    [error] if that is a usable list, else the first of [errors]. *)
Definition first_usable (body : Value) : option Value :=
  match usable_first (field body "error") with
  | Some first => Some first
  | None => usable_first (field body "errors")
  end.

(** The first of the fields [error], [message], [detail] that is a
    string. *)
Definition first_string (body : Value) : option string :=
  match field body "error", field body "message", field body "detail" with
  | VStr s, _, _ => Some s
  | _, VStr s, _ => Some s
  | _, _, VStr s => Some s
  | _, _, _ => None
  end.

(** The header of a JSON answer, in either spelling the handler uses. *)
Definition json_headers (r : Response) : Prop :=
  headers r = [("Content-Type", "application/json")]
  ∨ headers r = [("content-type", "application/json")].

Definition reply_chat_completion : Value :=
  VObj [("output", VArr []); ("response", VStr EmptyString);
        ("choices", VArr [VObj [("message", VObj [("content", VStr "C")])]]);
        ("result", VObj [("response", VStr "R")])].

Definition clean_history : list ChatMessage :=
  [U "hello"; Asst "hi"; U "what is 2+2?"].

(** * Properties of the sanitiser *)

Lemma removelast_subseteq {A : Type} (l : list A) : removelast l ⊆ l.
Proof.
  intros y Hy. destruct l as [|a l] using rev_ind; [done|].
  rewrite removelast_last in Hy. set_solver.
Qed.

Section SanitizerFacts.
Context {A : Type} (msg : A → ChatMessage) (blocked : gset string).

Lemma sanitize_from_app cleaned xs ys :
  sanitize_from msg blocked cleaned (xs ++ ys)
  = sanitize_from msg blocked (sanitize_from msg blocked cleaned xs) ys.
Proof. unfold sanitize_from. apply fold_left_app. Qed.

Lemma sanitize_from_cons cleaned x xs :
  sanitize_from msg blocked cleaned (x :: xs)
  = sanitize_from msg blocked (sanitize_step msg blocked cleaned x) xs.
Proof. reflexivity. Qed.

(** What one iteration can do to the accumulator. *)
Lemma sanitize_step_cases cleaned x :
  sanitize_step msg blocked cleaned x = cleaned
  ∨ (sanitize_step msg blocked cleaned x = removelast cleaned
     ∧ looksLikeGuardrailNotice (msg x) = true)
  ∨ (sanitize_step msg blocked cleaned x = cleaned ++ [x] ∧ retained msg blocked x).
Proof.
  unfold sanitize_step, retained.
  destruct (String.eqb (role (msg x)) "system"); [by left|].
  destruct (String.eqb (role (msg x)) "user" && _) eqn:Hb; [by left|].
  destruct (looksLikeGuardrailNotice (msg x)) eqn:Hn.
  - destruct (last_is_user msg cleaned); [right; left; done | by left].
  - right; right. done.
Qed.

Lemma sanitize_step_retained cleaned x :
  retained msg blocked x → sanitize_step msg blocked cleaned x = cleaned ++ [x].
Proof. intros (Hs & Hb & Hn). unfold sanitize_step. by rewrite Hs, Hb, Hn. Qed.

(** The loop invents nothing: whatever it returns was in the
    accumulator or is a retained entry of the input. *)
Lemma sanitize_from_elem cleaned xs y :
  y ∈ sanitize_from msg blocked cleaned xs → y ∈ cleaned ∨ (y ∈ xs ∧ retained msg blocked y).
Proof.
  revert cleaned. induction xs as [|x xs IH]; intros cleaned Hy; [by left|].
  rewrite sanitize_from_cons in Hy. apply IH in Hy as [Hy|[Hy Hr]].
  - destruct (sanitize_step_cases cleaned x) as [Heq|[[Heq _]|[Heq Hr]]];
      rewrite Heq in Hy.
    + by left.
    + left. by apply removelast_subseteq.
    + apply elem_of_app in Hy as [Hy|Hy]; [by left|].
      apply list_elem_of_singleton in Hy as ->. right. split; [set_solver|done].
  - right. split; [set_solver|done].
Qed.

(** On retained entries the loop only appends. *)
Lemma sanitize_from_retained cleaned xs :
  Forall (retained msg blocked) xs → sanitize_from msg blocked cleaned xs = cleaned ++ xs.
Proof.
  revert cleaned. induction xs as [|x xs IH]; intros cleaned Hall.
  - by rewrite app_nil_r.
  - inversion Hall as [|? ? (Hs & Hb & Hn) Hrest]; subst.
    rewrite sanitize_from_cons, IH by done.
    unfold sanitize_step. rewrite Hs, Hb, Hn. by rewrite <- app_assoc.
Qed.
End SanitizerFacts.

Lemma notice_is_assistant m :
  looksLikeGuardrailNotice m = true → role m = "assistant".
Proof.
  unfold looksLikeGuardrailNotice. intros H.
  apply andb_true_iff in H as [H _]. by apply String.eqb_eq.
Qed.

(** Entries retained under some block set are retained under the empty
    one. *)
Lemma retained_empty_blockset (blocked : gset string) (m : ChatMessage) :
  retained id blocked m → retained id ∅ m.
Proof.
  intros (Hs & _ & Hn). repeat split; [done| |done].
  rewrite bool_decide_eq_false_2 by set_solver. apply andb_false_r.
Qed.

Lemma sanitize_all_retained (blocked : gset string) (raw : list ChatMessage) :
  Forall (retained id blocked) (sanitize id blocked raw).
Proof.
  apply Forall_forall. intros m Hm.
  apply sanitize_from_elem in Hm as [Hm|[_ Hm]]; [set_solver|done].
Qed.

(** * Properties of the window *)

Lemma window_length (cleaned : list ChatMessage) :
  length (window cleaned) = Nat.min 16 (length cleaned).
Proof.
  unfold window, slice. destruct (16 <? length cleaned)%nat eqn:Hlt.
  - apply Nat.ltb_lt in Hlt. rewrite length_drop. lia.
  - apply Nat.ltb_ge in Hlt. lia.
Qed.

Lemma window_suffix (cleaned : list ChatMessage) : ∃ older, cleaned = older ++ window cleaned.
Proof.
  unfold window, slice. destruct (16 <? length cleaned)%nat.
  - exists (take (length cleaned - 16) cleaned). by rewrite take_drop.
  - by exists [].
Qed.

Lemma window_short (cleaned : list ChatMessage) :
  (length cleaned ≤ 16)%nat → window cleaned = cleaned.
Proof.
  intros Hle. unfold window.
  destruct (16 <? length cleaned)%nat eqn:Hlt; [|done].
  apply Nat.ltb_lt in Hlt. lia.
Qed.

(** C5: whatever the conversation and the block set, the sanitised
    history holds no message whose role is system. *)
Theorem sanitized_has_no_system_message (raw : list ChatMessage) (blocked : gset string) :
  Forall (λ m, role m ≠ "system") (sanitize id blocked raw).
Proof.
  eapply Forall_impl; [apply sanitize_all_retained|].
  intros m (Hs & _ & _). simpl in Hs. by apply String.eqb_neq.
Qed.

(** C3: a sanitised history of at most 16 entries is its own window; a
    longer one is windowed to exactly its last 16 entries, in their
    order (the window is the suffix of length 16). *)
Theorem window_is_trailing_16 (cleaned : list ChatMessage) :
  ((length cleaned ≤ 16)%nat → window cleaned = cleaned)
  ∧ ((16 < length cleaned)%nat →
     length (window cleaned) = 16
     ∧ ∃ older, cleaned = older ++ window cleaned).
Proof.
  split.
  - apply window_short.
  - intros Hlt. split; [rewrite window_length; lia | apply window_suffix].
Qed.

(** C3, witness: a history of three entries and one of seventeen. *)
Lemma window_is_trailing_16_witness :
  window short_history = short_history
  ∧ length (window long_history) = 16%nat
  ∧ ∃ older, long_history = older ++ window long_history.
Proof.
  split.
  - apply (proj1 (window_is_trailing_16 short_history)). simpl. lia.
  - apply (proj2 (window_is_trailing_16 long_history)). simpl. lia.
Defined.

(** C9: sanitising and windowing the output of sanitise-then-window
    again, with an empty block set, gives that output back. *)
Theorem sanitize_window_idempotent (raw : list ChatMessage) (blocked : gset string) :
  let out := window (sanitize id blocked raw) in
  window (sanitize id ∅ out) = out.
Proof.
  intros out.
  assert (Hret : Forall (retained id ∅) out).
  { destruct (window_suffix (sanitize id blocked raw)) as [older Heq].
    pose proof (sanitize_all_retained blocked raw) as Hall.
    rewrite Heq in Hall. apply Forall_app in Hall as [_ Hall].
    eapply Forall_impl; [exact Hall|]. apply retained_empty_blockset. }
  unfold sanitize. rewrite sanitize_from_retained by done. simpl.
  apply window_short. subst out. rewrite window_length. lia.
Qed.

(** * Positions kept by the sanitiser *)

Lemma indexed_from_app {A : Type} (start : nat) (l1 l2 : list A) :
  indexed_from start (l1 ++ l2)
  = indexed_from start l1 ++ indexed_from (start + length l1) l2.
Proof.
  revert start. induction l1 as [|x l1 IH]; intros start; simpl.
  - by rewrite Nat.add_0_r.
  - rewrite IH. do 3 f_equal. lia.
Qed.

Lemma indexed_from_snd {A : Type} (start : nat) (l : list A) :
  (indexed_from start l).*2 = l.
Proof. revert start. induction l as [|x l IH]; intros start; simpl; [done|by rewrite IH]. Qed.

Lemma indexed_from_elem {A : Type} (start : nat) (l : list A) (i : nat) (x : A) :
  (i, x) ∈ indexed_from start l → (start ≤ i)%nat ∧ l !! (i - start)%nat = Some x.
Proof.
  revert start. induction l as [|y l IH]; intros start Hin; simpl in Hin.
  - by apply elem_of_nil in Hin.
  - apply elem_of_cons in Hin as [[= -> ->]|Hin].
    + split; [lia|]. by rewrite Nat.sub_diag.
    + apply IH in Hin as [Hle Hl]. split; [lia|].
      replace (i - start)%nat with (S (i - S start)) by lia. done.
Qed.

(** The loop commutes with forgetting the positions: the tagged run and
    the plain run are the same run. *)
Lemma sanitize_from_natural {A : Type} (msg : A → ChatMessage) (blocked : gset string)
    (cleaned raw : list A) :
  msg <$> sanitize_from msg blocked cleaned raw
  = sanitize_from id blocked (msg <$> cleaned) (msg <$> raw).
Proof.
  revert cleaned. induction raw as [|x raw IH]; intros cleaned; [done|].
  rewrite fmap_cons, !sanitize_from_cons, IH. f_equal.
  unfold sanitize_step, last_is_user. simpl.
  rewrite fmap_last.
  destruct (String.eqb (role (msg x)) "system"); [done|].
  destruct (String.eqb (role (msg x)) "user" && _); [done|].
  destruct (looksLikeGuardrailNotice (msg x)).
  - destruct (last cleaned) as [y|]; simpl; [|done].
    destruct (String.eqb (role (msg y)) "user"); [|done].
    rewrite !removelast_firstn_len, length_fmap. by rewrite fmap_take.
  - by rewrite fmap_app.
Qed.

Lemma kept_positions_messages (blocked : gset string) (raw : list ChatMessage) :
  (sanitize snd blocked (indexed raw)).*2 = sanitize id blocked raw.
Proof.
  unfold sanitize, indexed. rewrite sanitize_from_natural. simpl.
  by rewrite indexed_from_snd.
Qed.

(** Every kept position holds a retained message of the input. *)
Lemma kept_position_retained (blocked : gset string) (raw : list ChatMessage) (i : nat) :
  i ∈ kept_positions blocked raw →
  ∃ m, raw !! i = Some m ∧ retained id blocked m.
Proof.
  unfold kept_positions. intros Hin.
  apply list_elem_of_fmap in Hin as [[j m] [-> Hin]]. simpl.
  apply sanitize_from_elem in Hin as [Hin|[Hin Hr]]; [by apply elem_of_nil in Hin|].
  apply indexed_from_elem in Hin as [_ Hl]. rewrite Nat.sub_0_r in Hl.
  by exists m.
Qed.

(** The accumulator after a prefix of the input only holds positions of
    that prefix. *)
Lemma kept_prefix_bound (blocked : gset string) (pre : list ChatMessage) (i : nat)
    (m : ChatMessage) :
  (i, m) ∈ sanitize snd blocked (indexed pre) → (i < length pre)%nat.
Proof.
  intros Hin.
  apply sanitize_from_elem in Hin as [Hin|[Hin _]]; [by apply elem_of_nil in Hin|].
  apply indexed_from_elem in Hin as [_ Hl]. rewrite Nat.sub_0_r in Hl.
  by apply lookup_lt_Some in Hl.
Qed.

(** A user entry followed by a notice: after both iterations the
    accumulator holds nothing that it did not hold before them. *)
Lemma user_then_notice_steps (blocked : gset string) (cleaned : list (nat * ChatMessage))
    (p q : nat) (u n : ChatMessage) :
  role u = "user" → looksLikeGuardrailNotice n = true →
  sanitize_step snd blocked (sanitize_step snd blocked cleaned (p, u)) (q, n) ⊆ cleaned.
Proof.
  intros Hu Hn. pose proof (notice_is_assistant _ Hn) as Ha.
  assert (Hstep : ∀ acc, sanitize_step snd blocked acc (q, n)
                         = if last_is_user snd acc then removelast acc else acc).
  { intros acc. unfold sanitize_step. simpl. by rewrite Ha, Hn. }
  assert (Huser : sanitize_step snd blocked cleaned (p, u)
                  = if bool_decide (content u ∈ blocked) then cleaned
                    else cleaned ++ [(p, u)]).
  { unfold sanitize_step, looksLikeGuardrailNotice. simpl. by rewrite Hu. }
  rewrite Hstep, Huser.
  destruct (bool_decide (content u ∈ blocked)).
  - destruct (last_is_user snd cleaned); [apply removelast_subseteq|done].
  - unfold last_is_user. rewrite last_snoc. simpl. rewrite Hu. simpl.
    by rewrite removelast_last.
Qed.

(** C1, as amended: a guardrail notice is never kept, and the user entry
    that immediately precedes it in the conversation is not kept either.
    If the notice is preceded by nothing, or by a non-user entry that is
    itself retained, reading it leaves the accumulator as it is.  In
    general what else the notice removes is decided by the accumulator,
    not by the conversation: if the accumulator is empty or its last
    entry is not a user entry it is left as it is, and otherwise exactly
    its last entry is removed. *)
Theorem guardrail_notice_removal (blocked : gset string) (pre post : list ChatMessage)
    (n : ChatMessage) :
  looksLikeGuardrailNotice n = true →
  let cleaned := sanitize id blocked pre in
  (length pre ∉ kept_positions blocked (pre ++ n :: post))
  ∧ (∀ earlier u, pre = earlier ++ [u] → role u = "user" →
       length earlier ∉ kept_positions blocked (pre ++ n :: post))
  ∧ (pre = [] ∨ (∃ earlier p, pre = earlier ++ [p]
                              ∧ retained id blocked p ∧ role p ≠ "user") →
       kept_positions blocked (pre ++ [n]) = kept_positions blocked pre)
  ∧ (last_is_user id cleaned = false →
       kept_positions blocked (pre ++ [n]) = kept_positions blocked pre)
  ∧ (last_is_user id cleaned = true →
       kept_positions blocked (pre ++ [n]) = removelast (kept_positions blocked pre)).
Proof.
  intros Hn cleaned. pose proof (notice_is_assistant _ Hn) as Ha.
  assert (Hlast : last_is_user snd (sanitize snd blocked (indexed pre))
                  = last_is_user id cleaned).
  { subst cleaned. rewrite <- kept_positions_messages.
    unfold last_is_user. rewrite fmap_last.
    by destruct (last (sanitize snd blocked (indexed pre))). }
  assert (Hsnoc : kept_positions blocked (pre ++ [n])
                  = (if last_is_user id cleaned
                     then removelast (sanitize snd blocked (indexed pre))
                     else sanitize snd blocked (indexed pre)).*1).
  { unfold kept_positions, sanitize, indexed.
    rewrite indexed_from_app, sanitize_from_app. simpl.
    unfold sanitize_step. simpl. rewrite Ha, Hn. simpl.
    fold (indexed pre). fold (sanitize snd blocked (indexed pre)). by rewrite Hlast. }
  assert (Hkeep : last_is_user id cleaned = false →
                  kept_positions blocked (pre ++ [n]) = kept_positions blocked pre).
  { intros Hf. by rewrite Hsnoc, Hf. }
  split; [|split; [|split; [|split]]].
  - intros Hin. apply kept_position_retained in Hin as (m & Hm & _ & _ & Hr).
    rewrite list_lookup_middle in Hm by done. injection Hm as <-.
    simpl in Hr. congruence.
  - intros earlier u -> Hu Hin.
    unfold kept_positions in Hin.
    apply list_elem_of_fmap in Hin as [[j m] [Hj Hin]]. simpl in Hj. subst j.
    unfold sanitize, indexed in Hin.
    rewrite <- !app_assoc in Hin. simpl in Hin.
    rewrite indexed_from_app, sanitize_from_app in Hin. simpl in Hin.
    apply sanitize_from_elem in Hin as [Hin|[Hin _]].
    + apply (user_then_notice_steps blocked _ _ _ u n Hu Hn) in Hin.
      apply kept_prefix_bound in Hin. lia.
    + apply indexed_from_elem in Hin as [Hle _]. lia.
  - intros [Hnil|(earlier & p & Hpre & Hret & Hrole)]; apply Hkeep; subst cleaned pre.
    + done.
    + unfold sanitize. rewrite sanitize_from_app. simpl.
      rewrite sanitize_step_retained by done.
      unfold last_is_user. rewrite last_snoc. simpl. by apply String.eqb_neq.
  - exact Hkeep.
  - intros Ht. rewrite Hsnoc, Ht. unfold kept_positions.
    rewrite !removelast_firstn_len, length_fmap. by rewrite fmap_take.
Qed.

(** C1, witness: the conversation [a, b, notice, c] with [b] a user
    entry, a notice after a retained assistant entry, and the two states
    of the accumulator. *)
Lemma guardrail_notice_removal_witness :
  ((2 ∉ kept_positions ∅ [Asst "a"; U "b"; sample_notice; U "c"])
   ∧ (1 ∉ kept_positions ∅ [Asst "a"; U "b"; sample_notice; U "c"]))
  ∧ kept_positions ∅ [U "a"; Asst "b"; sample_notice] = kept_positions ∅ [U "a"; Asst "b"]
  ∧ kept_positions {["b"]} [Asst "a"; U "b"; sample_notice]
    = kept_positions {["b"]} [Asst "a"; U "b"]
  ∧ kept_positions ∅ [Asst "a"; U "b"; sample_notice]
    = removelast (kept_positions ∅ [Asst "a"; U "b"]).
Proof.
  split; [|split; [|split]].
  - destruct (guardrail_notice_removal ∅ [Asst "a"; U "b"] [U "c"] sample_notice)
      as (H1 & H2 & _); [reflexivity|].
    split; [exact H1 | exact (H2 [Asst "a"] (U "b") eq_refl eq_refl)].
  - destruct (guardrail_notice_removal ∅ [U "a"; Asst "b"] [] sample_notice)
      as (_ & _ & H3 & _); [reflexivity|].
    apply H3. right. exists [U "a"], (Asst "b").
    split; [reflexivity|]. split; [|discriminate].
    repeat split; reflexivity.
  - destruct (guardrail_notice_removal {["b"]} [Asst "a"; U "b"] [] sample_notice)
      as (_ & _ & _ & H4 & _); [reflexivity|].
    apply H4. reflexivity.
  - destruct (guardrail_notice_removal ∅ [Asst "a"; U "b"] [] sample_notice)
      as (_ & _ & _ & _ & H5); [reflexivity|].
    apply H5. reflexivity.
Defined.

(** C1, counterexample to the claim as stated: in [user a, system s,
    notice] the notice is immediately preceded by a non-user entry, yet
    reading it removes the user entry at position 0, which was kept
    until then. *)
Lemma notice_after_system_entry_removes_user :
  let pre := [U "a"; Sys "s"] in
  looksLikeGuardrailNotice sample_notice = true
  ∧ last pre = Some (Sys "s") ∧ role (Sys "s") ≠ "user"
  ∧ kept_positions ∅ pre = [0%nat]
  ∧ kept_positions ∅ (pre ++ [sample_notice]) = []
  ∧ sanitize id ∅ (pre ++ [sample_notice]) = [].
Proof. vm_compute. repeat split; done. Qed.

(** * Properties of the formatter *)

Lemma append_empty_inv (a b : string) : a +:+ b = EmptyString → a = EmptyString.
Proof. destruct a; [done|discriminate]. Qed.

Lemma rendering_render (m : ChatMessage) :
  render m = default EmptyString (rendering m)
  ∧ (∀ text, rendering m = Some text → truthy_string text = true).
Proof.
  unfold render, rendering.
  destruct (String.eqb (role m) "user"); [split; [done|by intros ? [= <-]]|].
  destruct (String.eqb (role m) "assistant"); [split; [done|by intros ? [= <-]]|].
  split; [done|discriminate].
Qed.

(** [filter(Boolean)] after [map] drops exactly the entries that have no
    rendering. *)
Lemma filter_render (windowed : list ChatMessage) :
  List.filter truthy_string (map render windowed) = omap rendering windowed.
Proof.
  induction windowed as [|m w IH]; [done|].
  simpl. destruct (rendering_render m) as [-> Hne].
  destruct (rendering m) as [text|]; simpl.
  - rewrite (Hne text eq_refl), IH. done.
  - by rewrite IH.
Qed.

Lemma join_empty_inv (sep : string) (parts : list string) :
  Forall (λ part, truthy_string part = true) parts →
  join sep parts = EmptyString → parts = [].
Proof.
  destruct parts as [|x rest]; [done|].
  intros Hall Hj. inversion Hall as [|? ? Hx _]; subst.
  assert (x = EmptyString) as ->; [|done].
  destruct rest; [done|]. simpl in Hj. by apply append_empty_inv in Hj.
Qed.

Lemma omap_rendering_truthy (windowed : list ChatMessage) :
  Forall (λ part, truthy_string part = true) (omap rendering windowed).
Proof.
  apply Forall_forall. intros text Hin.
  apply list_elem_of_omap in Hin as (m & _ & Hm).
  by apply (rendering_render m).
Qed.

Lemma omap_rendering_nil (windowed : list ChatMessage) :
  omap rendering windowed = [] ↔ Forall (λ m, ¬ speaks m) windowed.
Proof.
  induction windowed as [|m w IH]; [done|].
  simpl. unfold rendering at 1, speaks at 1.
  destruct (String.eqb_spec (role m) "user") as [Hu|Hu].
  { split; [done|]. intros H. inversion H; subst. tauto. }
  destruct (String.eqb_spec (role m) "assistant") as [Ha|Ha].
  { split; [done|]. intros H. inversion H; subst. tauto. }
  rewrite IH. split.
  - intros H. constructor; [tauto|done].
  - intros H. by inversion H.
Qed.

(** Whether a history is a single user turn is decidable. *)
Lemma classic_single (windowed : list ChatMessage) :
  single_user_turn windowed ∨ ¬ single_user_turn windowed.
Proof.
  destruct windowed as [|m [|m' w]].
  - right. by intros (? & ? & _).
  - destruct (String.eqb_spec (role m) "user") as [Hu|Hu].
    + left. by exists m.
    + right. intros (m' & [= <-] & Hu'). done.
  - right. by intros (? & ? & _).
Qed.

Lemma format_input_general (windowed : list ChatMessage) :
  ¬ single_user_turn windowed → format_input windowed = transcript windowed.
Proof.
  intros Hns. unfold format_input, transcript.
  rewrite filter_render.
  destruct windowed as [|m [|m' w]]; [done| |done].
  destruct (String.eqb_spec (role m) "user") as [Hu|Hu]; [|done].
  exfalso. apply Hns. by exists m.
Qed.

(** C4: a history that is one user entry is sent as that entry's
    content; any other history is sent as the transcript, in which user
    and assistant entries are prefixed with their role, other entries
    are dropped, and a blank line separates the renderings; the history
    [user Hi, assistant Hello] gives [User: Hi], a blank line,
    [Assistant: Hello]. *)
Theorem format_input_spec (windowed : list ChatMessage) :
  (∀ m, windowed = [m] → role m = "user" → format_input windowed = content m)
  ∧ (¬ single_user_turn windowed → format_input windowed = transcript windowed)
  ∧ format_input [U "Hi"; Asst "Hello"]
    = "User: Hi" +:+ String LF (String LF "Assistant: Hello").
Proof.
  split; [|split].
  - intros m -> Hu. unfold format_input. by rewrite Hu.
  - apply format_input_general.
  - reflexivity.
Qed.

(** C4, witness. *)
Lemma format_input_spec_witness :
  format_input [U "2+2?"] = "2+2?"
  ∧ format_input [U "Hi"; Sys "be brief"; Asst "Hello"]
    = "User: Hi" +:+ String LF (String LF "Assistant: Hello").
Proof.
  split.
  - exact (proj1 (format_input_spec [U "2+2?"]) (U "2+2?") eq_refl eq_refl).
  - rewrite (proj1 (proj2 (format_input_spec [U "Hi"; Sys "be brief"; Asst "Hello"]))).
    + reflexivity.
    + intros (m & Hm & _). discriminate Hm.
Defined.

(** C7, counterexample to the claim as stated: a history that is not
    empty, one user entry with empty content, is formatted to the empty
    input. *)
Lemma empty_user_turn_gives_empty_input :
  [U EmptyString] ≠ [] ∧ format_input [U EmptyString] = EmptyString
  ∧ input (buildModelInput [U EmptyString] ∅) = EmptyString.
Proof. repeat split; done. Qed.

(** C7, as amended: the formatted input is empty exactly when the
    history has no user or assistant entry at all (in particular when it
    is empty), or is a single user entry whose content is empty. *)
Theorem format_input_empty_iff (windowed : list ChatMessage) :
  format_input windowed = EmptyString
  ↔ Forall (λ m, ¬ speaks m) windowed
    ∨ ∃ m, windowed = [m] ∧ role m = "user" ∧ content m = EmptyString.
Proof.
  destruct (classic_single windowed) as [(m & -> & Hu)|Hns].
  - unfold format_input. rewrite Hu. simpl. split.
    + intros Hc. right. by exists m.
    + intros [Hall|(m' & [= <-] & _ & Hc)]; [|done].
      inversion Hall as [|? ? Hm _]; subst. exfalso. apply Hm. by left.
  - rewrite format_input_general by done. unfold transcript. split.
    + intros Hj. left. apply omap_rendering_nil.
      eapply join_empty_inv; [apply omap_rendering_truthy|done].
    + intros [Hall|(m & -> & Hu & _)].
      * apply omap_rendering_nil in Hall. by rewrite Hall.
      * exfalso. apply Hns. by exists m.
Qed.

(** * Properties of the response extractor *)

Lemma marked_truthy (tag : string) (entry : Value) :
  marked tag entry = true → truthy entry = true.
Proof.
  unfold marked, field. by destruct entry.
Qed.

Lemma getProp_present (v : Value) (key : string) :
  nullish v = false → getProp v key = Normal (field v key).
Proof. unfold field. by destruct v. Qed.

(** As long as it meets no [null] the callback of [find] does not
    throw, and [find] returns the first marked entry. *)
Lemma find_by_type_present (tag : string) (items : list Value) :
  search_meets_no_null tag items = true →
  find_by_type tag items = Normal (default VUndefined (List.find (marked tag) items)).
Proof.
  induction items as [|item rest IH]; [done|].
  simpl. intros [Hitem Hrest]%andb_true_iff.
  apply negb_true_iff in Hitem.
  rewrite (getProp_present _ _ Hitem). simpl. unfold marked in *.
  destruct (strict_eq_string (field item "type") tag); [done|by apply IH].
Qed.

Lemma find_marked_truthy (tag : string) (items : list Value) :
  truthy (default VUndefined (List.find (marked tag) items))
  = match List.find (marked tag) items with Some _ => true | None => false end.
Proof.
  destruct (List.find (marked tag) items) as [entry|] eqn:Hf; [|done].
  apply find_some in Hf as [_ Hm]. simpl. by apply (marked_truthy tag).
Qed.

(** Lines 165-174 in the words of the specification. *)
Lemma extract_output_text_refines (reply : Value) :
  is_object reply → entries_present reply = true →
  extract_output_text reply
  = Normal (if truthy (output_text reply) then output_text reply else VStr EmptyString).
Proof.
  intros Hobj Hpresent.
  unfold extract_output_text, entries_present, output_text in *.
  rewrite getProp_present by (by destruct reply). simpl.
  destruct (field reply "output") as [| | | | |entries|]; try done.
  apply andb_true_iff in Hpresent as [Hentries Hparts].
  rewrite (find_by_type_present _ _ Hentries). simpl.
  rewrite find_marked_truthy.
  destruct (List.find (marked "message") entries) as [message|] eqn:Hfind; [|done].
  simpl. apply find_some in Hfind as [_ Hm].
  rewrite getProp_present by (by destruct message). simpl.
  destruct (field message "content") as [| | | | |parts|]; try done.
  rewrite (find_by_type_present _ _ Hparts). simpl.
  rewrite find_marked_truthy.
  destruct (List.find (marked "output_text") parts) as [part|] eqn:Hfind'; [|done].
  simpl. apply find_some in Hfind' as [_ Hp].
  rewrite getProp_present by (by destruct part). simpl.
  by destruct (truthy (field part "text")).
Qed.

(** The chain [resp.choices && resp.choices[0]?.message?.content] yields
    something exactly when the null-safe path does, and then the same. *)
Lemma chat_completion_content_refines (reply : Value) :
  is_object reply →
  ∃ chat, chat_completion_content reply = Normal chat
          ∧ truthy chat = truthy (chat_content reply)
          ∧ (truthy chat = true → chat = chat_content reply).
Proof.
  intros Hobj. unfold chat_completion_content, chat_content.
  rewrite getProp_present by (by destruct reply). simpl.
  destruct (truthy (field reply "choices")) eqn:Hc.
  - rewrite getProp_present by (by destruct (field reply "choices")). simpl.
    destruct (nullish (field (field reply "choices") "0")) eqn:Hfirst.
    { exists VUndefined. split; [done|].
      by destruct (field (field reply "choices") "0"). }
    rewrite getProp_present by done. simpl.
    destruct (nullish (field (field (field reply "choices") "0") "message")) eqn:Hmsg.
    { exists VUndefined. split; [done|].
      by destruct (field (field (field reply "choices") "0") "message"). }
    rewrite getProp_present by done. eauto.
  - exists (field reply "choices"). split; [done|].
    rewrite Hc. split; [|done].
    by destruct (field reply "choices") as [| |[]|[]|[]| |].
Qed.

Lemma nested_result_response_refines (reply : Value) :
  is_object reply →
  ∃ nested, nested_result_response reply = Normal nested
            ∧ truthy nested = truthy (result_response reply)
            ∧ (truthy nested = true → nested = result_response reply).
Proof.
  intros Hobj. unfold nested_result_response, result_response.
  rewrite getProp_present by (by destruct reply). simpl.
  destruct (truthy (field reply "result")) eqn:Hr.
  - rewrite getProp_present by (by destruct (field reply "result")). eauto.
  - exists (field reply "result"). split; [done|].
    rewrite Hr. split; [|done].
    by destruct (field reply "result") as [| |[]|[]|[]| |].
Qed.

(** The extractor refines the ordered fallback chain of the
    specification on every object reply in which the two searches meet
    no [null]. *)
Lemma extractResponseText_refines (reply : Value) :
  is_object reply → entries_present reply = true →
  extractResponseText reply = Normal (first_yield reply).
Proof.
  intros Hobj Hpresent.
  assert (extractResponseText reply
          = (responseText ← extract_output_text reply;
             if negb (truthy responseText) then extract_fallback reply
             else Normal responseText)) as ->.
  { by destruct reply. }
  rewrite extract_output_text_refines by done. simpl.
  unfold first_yield, candidates. simpl.
  destruct (truthy (output_text reply)) eqn:H2; simpl; [by rewrite H2|].
  unfold extract_fallback, response_field, content_field.
  rewrite !getProp_present by (by destruct reply). simpl.
  destruct (truthy (field reply "response")); [done|].
  destruct (truthy (field reply "content")); [done|].
  destruct (chat_completion_content_refines reply Hobj) as (chat & -> & Hct & Hcv).
  simpl. rewrite Hct.
  destruct (truthy (chat_content reply)); [by rewrite Hcv|].
  destruct (nested_result_response_refines reply Hobj) as (nested & -> & Hnt & Hnv).
  simpl. rewrite Hnt.
  destruct (truthy (result_response reply)); [by rewrite Hnv|done].
Qed.

Lemma handleChatRequest_success (raw : IncomingBody) (AI_run : string → Completion Value)
    (reply text : Value) :
  AI_run (model_input raw) = Normal reply →
  extractResponseText reply = Normal text →
  handleChatRequest (Normal raw) AI_run = Normal (success_response text).
Proof.
  intros Hrun Hext. unfold handleChatRequest, try_block. simpl.
  rewrite Hrun. simpl. by rewrite Hext.
Qed.

(** C10: a reply that is neither a string nor an object ([undefined],
    [null], a boolean, a number) is answered with status 200 and the body
    [{response: <empty string>, success: true}]. *)
Theorem primitive_reply_gives_empty_response (raw : IncomingBody)
    (AI_run : string → Completion Value) (reply : Value) :
  AI_run (model_input raw) = Normal reply →
  neither_string_nor_object reply →
  ∃ r, handleChatRequest (Normal raw) AI_run = Normal r
       ∧ status r = 200%Z
       ∧ body r = VObj [("response", VStr EmptyString); ("success", VBool true)].
Proof.
  intros Hrun Hprim. exists (success_response (VStr EmptyString)).
  split; [|done]. apply (handleChatRequest_success _ _ reply); [done|].
  destruct reply as [| |b|x| | |]; try done.
  - by destruct b.
  - destruct x as [q|negative]; simpl; [by destruct (negb (Qeq_bool q 0))|done].
Qed.

(** C10, witness: the reply [null]. *)
Lemma primitive_reply_gives_empty_response_witness :
  ∃ r, handleChatRequest (Normal empty_request) (λ _, Normal VNull) = Normal r
       ∧ status r = 200%Z
       ∧ body r = VObj [("response", VStr EmptyString); ("success", VBool true)].
Proof.
  apply (primitive_reply_gives_empty_response empty_request (λ _, Normal VNull) VNull).
  - reflexivity.
  - exact I.
Defined.

Lemma find_truthy_first (x : Value) (rest : list Value) :
  truthy x = true → List.find truthy (x :: rest) = Some x.
Proof. intros H. simpl. by rewrite H. Qed.

Lemma find_truthy_none (l : list Value) :
  Forall (λ c, truthy c = false) l → List.find truthy l = None.
Proof.
  induction 1 as [|x l Hx _ IH]; [done|]. simpl. by rewrite Hx.
Qed.

(** C6, as amended: when the first message entry of the [output] list
    has, as the first [output_text] entry of its [content] list, one
    with a non-empty text, and no [null] entry comes before either of
    them, that text is the response even if the reply also has a text
    [response] field. *)
Theorem output_text_precedes_response (raw : IncomingBody)
    (AI_run : string → Completion Value) (reply : Value) (text other : string) :
  AI_run (model_input raw) = Normal reply →
  entries_present reply = true →
  output_text reply = VStr text → text ≠ EmptyString →
  response_field reply = VStr other →
  ∃ r, handleChatRequest (Normal raw) AI_run = Normal r
       ∧ status r = 200%Z
       ∧ body r = VObj [("response", VStr text); ("success", VBool true)].
Proof.
  intros Hrun Hpresent Hshape2 Hne _.
  exists (success_response (VStr text)). split; [|done].
  apply (handleChatRequest_success _ _ reply); [done|].
  assert (Hobj : is_object reply).
  { destruct reply; try done; unfold output_text, field in Hshape2; simpl in Hshape2;
      discriminate. }
  rewrite extractResponseText_refines by done.
  unfold first_yield, candidates. rewrite find_truthy_first; rewrite Hshape2; [done|].
  by destruct text.
Qed.

(** C6, witness: a reply with a reasoning entry, a message entry whose
    text is [A], a [null] entry after it, and a [response] field [B]. *)
Lemma output_text_precedes_response_witness :
  ∃ r, handleChatRequest (Normal empty_request) (λ _, Normal reply_both_shapes) = Normal r
       ∧ status r = 200%Z
       ∧ body r = VObj [("response", VStr "A"); ("success", VBool true)].
Proof.
  apply (output_text_precedes_response empty_request (λ _, Normal reply_both_shapes)
           reply_both_shapes "A" "B").
  - reflexivity.
  - reflexivity.
  - reflexivity.
  - discriminate.
  - reflexivity.
Defined.

(** C6, counterexample to the claim as stated: the [output] list of
    this reply contains a message entry whose [content] list has an
    [output_text] entry, with text [A], and the reply has the text
    [response] field [B]; the first message entry has an empty [content]
    list, and the response is [B]. *)
Lemma second_message_entry_is_not_consulted :
  some_output_text reply_two_messages (VStr "A")
  ∧ response_field reply_two_messages = VStr "B"
  ∧ handleChatRequest (Normal empty_request) (λ _, Normal reply_two_messages)
    = Normal (success_response (VStr "B")).
Proof.
  split; [|split; reflexivity].
  exists [message_entry []; message_entry [text_part "A"]],
    (message_entry [text_part "A"]), [text_part "A"], (text_part "A").
  repeat split; try reflexivity.
  - apply list_elem_of_In. simpl. tauto.
  - apply list_elem_of_In. simpl. tauto.
Qed.

(** C8, as amended: an object reply in which none of the shapes 2 to 6
    yields anything, and in which the searches of the [output] list and
    of the [content] list meet no [null] entry, is answered with status
    200, [success: true] and the fallback text as the response. *)
Theorem unmatched_object_reply_gives_fallback (raw : IncomingBody)
    (AI_run : string → Completion Value) (reply : Value) :
  AI_run (model_input raw) = Normal reply →
  is_object reply →
  entries_present reply = true →
  Forall (λ c, truthy c = false) (candidates reply) →
  ∃ r, handleChatRequest (Normal raw) AI_run = Normal r
       ∧ status r = 200%Z
       ∧ body r = VObj [("response", VStr "Error: Could not parse AI response");
                        ("success", VBool true)].
Proof.
  intros Hrun Hobj Hpresent Hnone.
  exists (success_response (VStr FALLBACK_TEXT)). split; [|done].
  apply (handleChatRequest_success _ _ reply); [done|].
  rewrite extractResponseText_refines by done.
  unfold first_yield. by rewrite find_truthy_none.
Qed.

(** C8, witness: an object reply with only a reasoning entry. *)
Lemma unmatched_object_reply_gives_fallback_witness :
  ∃ r, handleChatRequest (Normal empty_request) (λ _, Normal reply_unknown_shape) = Normal r
       ∧ status r = 200%Z
       ∧ body r = VObj [("response", VStr "Error: Could not parse AI response");
                        ("success", VBool true)].
Proof.
  apply (unmatched_object_reply_gives_fallback empty_request
           (λ _, Normal reply_unknown_shape) reply_unknown_shape).
  - reflexivity.
  - exact I.
  - reflexivity.
  - repeat constructor.
Defined.

(** C8, counterexample to the claim as stated: the reply [null] is a
    successful reply that none of the shapes matches (it is not text,
    and shapes 2 to 6 find nothing in it), and the response text is the
    empty string, not the fallback text. *)
Lemma null_reply_is_not_given_fallback :
  (∀ s, VNull ≠ VStr s)
  ∧ Forall (λ c, truthy c = false) (candidates VNull)
  ∧ handleChatRequest (Normal empty_request) (λ _, Normal VNull)
    = Normal (success_response (VStr EmptyString))
  ∧ VStr EmptyString ≠ VStr FALLBACK_TEXT.
Proof.
  split; [done|]. split; [repeat constructor|]. split; [reflexivity|discriminate].
Qed.

(** A [null] entry ahead of the message entry: the callback of [find]
    reads [type] from it, the read throws, and the [catch] block answers
    with the generic failure. *)
Lemma null_entry_ends_in_generic_failure :
  entries_present reply_null_entry = false
  ∧ handleChatRequest (Normal empty_request) (λ _, Normal reply_null_entry)
    = Normal generic_failure_response.
Proof. split; [reflexivity|]. vm_compute. reflexivity. Qed.

(** The end-to-end scenarios of the specification: a single question is
    sent as it is, and a blocked question with its notice leaves only
    the question that follows. *)
Lemma end_to_end_scenarios :
  model_input (mkBody (Some [U "2+2?"]) (Some [])) = "2+2?"
  ∧ sanitize id {["how to pick a lock"]}
      [U "hello"; Asst "hi"; U "how to pick a lock"; sample_notice; U "what is 2+2?"]
    = [U "hello"; Asst "hi"; U "what is 2+2?"].
Proof. split; vm_compute; reflexivity. Qed.

(** * Properties of the error normaliser *)

Local Arguments String.append !_ _ / : simpl nomatch.

Lemma append_assoc (a b c : string) : (a +:+ b) +:+ c = a +:+ (b +:+ c).
Proof. induction a as [|x a IH]; simpl; [done|by rewrite IH]. Qed.

Lemma upto_last_absent (c : ascii) (s : string) :
  occurs c s = false → upto_last c s = None.
Proof.
  induction s as [|x s IH]; [done|]. simpl.
  intros [Hx Hs]%orb_false_iff. by rewrite IH, Hx.
Qed.

(** A greedy match backtracks to the last occurrence. *)
Lemma upto_last_final (c : ascii) (a q : string) :
  occurs c q = false →
  upto_last c (a +:+ String c q) = Some (a +:+ String c EmptyString).
Proof.
  intros Hq. induction a as [|x a IH]; simpl.
  - by rewrite upto_last_absent, Ascii.eqb_refl.
  - by rewrite IH.
Qed.

Lemma dot_star_plain (a t : string) :
  plain_line a = true → dot_star (a +:+ t) = a +:+ dot_star t.
Proof.
  induction a as [|x a IH]; [done|].
  intros H. cbn [plain_line] in H.
  apply andb_true_iff in H as [H Ha].
  apply andb_true_iff in H as [H H226].
  apply andb_true_iff in H as [HLF HCR].
  apply negb_true_iff in HLF, HCR, H226.
  cbn [append dot_star starts_line_terminator].
  rewrite HLF, HCR, H226. simpl. by rewrite IH.
Qed.

Lemma dot_star_absent (c : ascii) (s : string) :
  occurs c s = false → occurs c (dot_star s) = false.
Proof.
  induction s as [|x s IH]; [done|].
  intros H. cbn [dot_star].
  destruct (starts_line_terminator (String x s)); [done|].
  simpl in *. apply orb_false_iff in H as [-> Hs]. by apply IH.
Qed.

Lemma match_braces_skip (before s : string) :
  occurs "{" before = false → match_braces (before +:+ s) = match_braces s.
Proof.
  induction before as [|x before IH]; [done|].
  simpl. intros [-> Hb]%orb_false_iff. by apply IH.
Qed.

(** The match is the embedded object when no opening brace comes before
    it and no closing brace after it. *)
Lemma match_braces_embedded (before inner after : string) :
  occurs "{" before = false → occurs "}" after = false → plain_line inner = true →
  match_braces (before +:+ String "{" (inner +:+ String "}" EmptyString) +:+ after)
  = Some (String "{" (inner +:+ String "}" EmptyString)).
Proof.
  intros Hb Ha Hp. rewrite match_braces_skip by done.
  cbn [append match_braces]. rewrite append_assoc. cbn [append].
  change (Ascii.eqb "{" "{") with true. cbv iota.
  rewrite dot_star_plain by done.
  replace (dot_star (String "}" after)) with (String "}" (dot_star after)).
  2:{ cbn [dot_star starts_line_terminator]. reflexivity. }
  rewrite upto_last_final by (by apply dot_star_absent). done.
Qed.

Lemma handle_error_by_descriptor (error : Value) (message : string) :
  field error "message" = VStr message → message ≠ EmptyString →
  handle_error error
  = (gatewayError ← try_catch (embedded_gateway_error message) (λ _, Normal VNull);
     prompt ← has_code gatewayError 2016;
     if (prompt : bool) then Normal prompt_blocked_response
     else
       response ← has_code gatewayError 2017;
       if (response : bool) then Normal response_blocked_response
       else Normal generic_failure_response).
Proof.
  intros Hm Hne. unfold handle_error, gateway_error_of.
  destruct error as [| | | |s|items|fields]; try (unfold field in Hm; simpl in Hm; discriminate).
  unfold field in Hm. simpl in *. rewrite Hm. simpl. by destruct message.
Qed.

(** What the inner [try] leaves in [gatewayError]: the descriptor if it
    is truthy, something falsy otherwise. *)
Lemma embedded_descriptor (message text : string) (parsed : Value) :
  match_braces message = Some text → JSON_parse text = Normal parsed →
  ∃ g, try_catch (embedded_gateway_error message) (λ _, Normal VNull) = Normal g
       ∧ (truthy g = true → g = descriptor parsed).
Proof.
  intros Hm Hp. unfold embedded_gateway_error, descriptor. rewrite Hm, Hp. simpl.
  destruct (nullish parsed) eqn:Hn.
  { exists VNull. split; [by destruct parsed|done]. }
  rewrite getProp_present by done. simpl.
  destruct (field parsed "error") as [| | | | |items|]; try (by exists VNull).
  simpl. destruct items as [|first rest]; simpl; [by exists VUndefined|by exists first].
Qed.

Lemma has_code_descriptor (g : Value) (n : Z) :
  has_code g n = Normal (truthy g && strict_eq_number (field g "code") n).
Proof.
  unfold has_code. destruct (truthy g) eqn:Ht; [|done].
  rewrite getProp_present by (by destruct g). done.
Qed.

Lemma plain_line_app (a b : string) :
  plain_line (a +:+ b) = plain_line a && plain_line b.
Proof.
  induction a as [|x a IH]; [done|].
  cbn [append plain_line]. rewrite IH. by rewrite andb_assoc.
Qed.

Lemma gateway_fragment_shape (code : string) :
  gateway_fragment code
  = String "{" (gateway_fragment_inner code +:+ String "}" EmptyString).
Proof.
  unfold gateway_fragment, gateway_fragment_inner, quoted.
  simpl. by rewrite append_assoc.
Qed.

(** The fragment is the first match when no opening brace comes before
    it and no closing brace after it. *)
Lemma fragment_is_first_match (before after code : string) :
  plain_line code = true →
  occurs "{" before = false → occurs "}" after = false →
  match_braces (before +:+ gateway_fragment code +:+ after) = Some (gateway_fragment code).
Proof.
  intros Hcode Hb Ha. rewrite gateway_fragment_shape.
  apply match_braces_embedded; [done..|].
  unfold gateway_fragment_inner. rewrite !plain_line_app, Hcode. reflexivity.
Qed.

Lemma match_braces_nonempty (message text : string) :
  match_braces message = Some text → message ≠ EmptyString.
Proof. by destruct message. Qed.

(** The handler's answer to a failure in whose message the first
    [{...}] match is the fragment. *)
Lemma handle_error_matched_fragment (error : Value) (message code : string) :
  field error "message" = VStr message →
  match_braces message = Some (gateway_fragment code) →
  handle_error error
  = (gatewayError ← try_catch
       (parsed ← JSON_parse (gateway_fragment code);
        error ← getProp parsed "error";
        match error with
        | VArr _ => getProp error "0"
        | _ => Normal VNull
        end) (λ _, Normal VNull);
     prompt ← has_code gatewayError 2016;
     if (prompt : bool) then Normal prompt_blocked_response
     else
       response ← has_code gatewayError 2017;
       if (response : bool) then Normal response_blocked_response
       else Normal generic_failure_response).
Proof.
  intros Hm Hmatch.
  rewrite (handle_error_by_descriptor _ _ Hm (match_braces_nonempty _ _ Hmatch)).
  unfold embedded_gateway_error. by rewrite Hmatch.
Qed.

(** Whatever the [try] block throws is what the [catch] block handles. *)
Lemma handleChatRequest_caught (request_json : Completion IncomingBody)
    (AI_run : string → Completion Value) (error : Value) :
  try_block request_json AI_run = Throw error →
  handleChatRequest request_json AI_run = handle_error error.
Proof. intros Hthrow. unfold handleChatRequest. by rewrite Hthrow. Qed.

(** C2, as amended: a caught failure in whose message the first [{...}]
    match (from the first opening brace to the last closing brace of
    that line) is the fragment [{"error":[{"code":2016,"message":"x"}]}]
    is answered with status 400, the label [Prompt Blocked by Security
    Policy] and the kind [prompt_blocked]; with code 2017 in the
    fragment, with status 400, [Response Blocked by Security Policy] and
    [response_blocked]; a failure whose message embeds no JSON object
    that parses, or one whose descriptor has any other code, is answered
    with the generic status 500 body.  The fragment is the first match
    whenever the message holds it with no opening brace before it and no
    closing brace after it. *)
Theorem gateway_error_normalisation (request_json : Completion IncomingBody)
    (AI_run : string → Completion Value) (error : Value) (message : string) :
  try_block request_json AI_run = Throw error →
  field error "message" = VStr message →
  (match_braces message = Some (gateway_fragment "2016") →
   blocked_with (handleChatRequest request_json AI_run) 400
     "Prompt Blocked by Security Policy" "prompt_blocked")
  ∧ (match_braces message = Some (gateway_fragment "2017") →
     blocked_with (handleChatRequest request_json AI_run) 400
       "Response Blocked by Security Policy" "response_blocked")
  ∧ ((∀ code, embedded_code message = Some code →
        strict_eq_number code 2016 = false ∧ strict_eq_number code 2017 = false) →
     generic_failure (handleChatRequest request_json AI_run))
  ∧ (∀ before after code,
       message = before +:+ gateway_fragment code +:+ after →
       plain_line code = true →
       occurs "{" before = false → occurs "}" after = false →
       match_braces message = Some (gateway_fragment code)).
Proof.
  intros Hthrow Hm. rewrite (handleChatRequest_caught _ _ _ Hthrow).
  split; [|split; [|split]].
  - intros Hmatch. rewrite (handle_error_matched_fragment _ _ _ Hm Hmatch).
    eexists. split; [vm_compute; reflexivity|]. by vm_compute.
  - intros Hmatch. rewrite (handle_error_matched_fragment _ _ _ Hm Hmatch).
    eexists. split; [vm_compute; reflexivity|]. by vm_compute.
  - intros Hother. exists generic_failure_response. split; [|done].
    destruct (decide (message = EmptyString)) as [->|Hne].
    { unfold handle_error, gateway_error_of.
      destruct error; try done. unfold field in Hm. simpl in *. by rewrite Hm. }
    rewrite (handle_error_by_descriptor _ _ Hm Hne).
    unfold embedded_code in Hother.
    destruct (match_braces message) as [text|] eqn:Hmatch.
    2:{ unfold embedded_gateway_error. by rewrite Hmatch. }
    destruct (JSON_parse text) as [parsed|e] eqn:Hparse.
    2:{ unfold embedded_gateway_error. by rewrite Hmatch, Hparse. }
    destruct (embedded_descriptor _ _ _ Hmatch Hparse) as (g & -> & Hg).
    simpl. rewrite !has_code_descriptor. simpl.
    destruct (truthy g); [|done]. rewrite Hg by done.
    destruct (Hother _ eq_refl) as [-> ->]. done.
  - intros before after code -> Hcode Hb Ha. by apply fragment_is_first_match.
Qed.

(** C2, witness: the remote call throws each of three sample failures. *)
Lemma gateway_error_normalisation_witness :
  blocked_with (handleChatRequest (Normal empty_request) (λ _, Throw failure_2016)) 400
    "Prompt Blocked by Security Policy" "prompt_blocked"
  ∧ blocked_with (handleChatRequest (Normal empty_request) (λ _, Throw failure_2017)) 400
      "Response Blocked by Security Policy" "response_blocked"
  ∧ generic_failure (handleChatRequest (Normal empty_request) (λ _, Throw failure_2018))
  ∧ match_braces ("AiError: " +:+ gateway_fragment "2016" +:+ " (request 7)")
    = Some (gateway_fragment "2016").
Proof.
  split; [|split; [|split]].
  - apply (proj1 (gateway_error_normalisation (Normal empty_request)
                    (λ _, Throw failure_2016) failure_2016 _ eq_refl eq_refl)).
    reflexivity.
  - apply (proj1 (proj2 (gateway_error_normalisation (Normal empty_request)
                           (λ _, Throw failure_2017) failure_2017 _ eq_refl eq_refl))).
    reflexivity.
  - apply (proj1 (proj2 (proj2 (gateway_error_normalisation (Normal empty_request)
                           (λ _, Throw failure_2018) failure_2018 _ eq_refl eq_refl)))).
    intros code Hcode. vm_compute in Hcode. injection Hcode as <-.
    split; reflexivity.
  - apply (proj2 (proj2 (proj2 (gateway_error_normalisation (Normal empty_request)
                           (λ _, Throw failure_2016) failure_2016 _ eq_refl eq_refl)))
             "AiError: " " (request 7)" "2016"); reflexivity.
Defined.

(** C2, counterexample to the claim as stated: the message of this
    caught failure contains the fragment with code 2016, followed on the
    same line by a text with braces; the match runs to the last closing
    brace, does not parse, and the answer is the generic status 500
    body. *)
Lemma fragment_followed_by_braces_is_generic :
  try_block (Normal empty_request) (λ _, Throw failure_trailing_braces)
  = Throw failure_trailing_braces
  ∧ field failure_trailing_braces "message"
    = VStr ("AiError: " +:+ gateway_fragment "2016" +:+ " (trace {7})")
  ∧ contains (gateway_fragment "2016")
      ("AiError: " +:+ gateway_fragment "2016" +:+ " (trace {7})")
  ∧ handleChatRequest (Normal empty_request) (λ _, Throw failure_trailing_braces)
    = Normal generic_failure_response
  ∧ status generic_failure_response = 500%Z.
Proof.
  split; [reflexivity|]. split; [reflexivity|].
  split; [by exists "AiError: ", " (trace {7})"|].
  split; [vm_compute|]; reflexivity.
Qed.

(** * Further properties of [buildModelInput] *)

Lemma sanitize_from_sublist {A : Type} (msg : A → ChatMessage) (blocked : gset string)
    (cleaned raw : list A) :
  sanitize_from msg blocked cleaned raw `sublist_of` cleaned ++ raw.
Proof.
  revert cleaned. induction raw as [|x raw IH]; intros cleaned.
  - by rewrite app_nil_r.
  - rewrite sanitize_from_cons. etrans; [apply IH|].
    rewrite (cons_middle x cleaned raw), app_assoc.
    apply sublist_app; [|done].
    destruct (sanitize_step_cases msg blocked cleaned x) as [->|[[-> _]|[-> _]]].
    + by apply sublist_inserts_r.
    + apply sublist_inserts_r. rewrite removelast_firstn_len. apply sublist_take.
    + done.
Qed.

(** X1: the sanitised history is a subsequence of the conversation: it
    holds entries of the input only, in the order of the input, none
    twice as often as the input does; so it is never longer. *)
Theorem sanitized_is_subsequence (raw : list ChatMessage) (blocked : gset string) :
  sanitize id blocked raw `sublist_of` raw
  ∧ (length (sanitize id blocked raw) ≤ length raw)%nat.
Proof.
  assert (H : sanitize id blocked raw `sublist_of` raw)
    by apply (sanitize_from_sublist id blocked [] raw).
  split; [done|by apply sublist_length].
Qed.

(** X2: no user entry whose content is in the block set, and no
    guardrail notice, reaches the sanitised history. *)
Theorem sanitized_has_no_blocked_content (raw : list ChatMessage) (blocked : gset string) :
  Forall (λ m, ¬ (role m = "user" ∧ content m ∈ blocked)
               ∧ looksLikeGuardrailNotice m = false)
         (sanitize id blocked raw).
Proof.
  eapply Forall_impl; [apply sanitize_all_retained|].
  intros m (_ & Hb & Hn). simpl in *. split; [|done].
  intros [Hu Hin]. rewrite Hu in Hb. simpl in Hb.
  by rewrite bool_decide_eq_true_2 in Hb.
Qed.

Lemma sanitize_from_filter_skipped (blocked : gset string) (cleaned raw : list ChatMessage) :
  sanitize_from id blocked cleaned raw
  = sanitize_from id blocked cleaned (List.filter (λ m, negb (skipped blocked m)) raw).
Proof.
  revert cleaned. induction raw as [|m raw IH]; intros cleaned; [done|].
  rewrite sanitize_from_cons. cbn [List.filter].
  destruct (skipped blocked m) eqn:Hs; cbn [negb].
  - rewrite <- IH. f_equal. unfold sanitize_step, skipped in *. simpl.
    destruct (String.eqb (role m) "system"); [done|]. simpl in Hs. by rewrite Hs.
  - by rewrite sanitize_from_cons, IH.
Qed.

(** X3: system messages and blocked user messages have no influence at
    all: deleting them from the conversation beforehand gives the same
    sanitised history, hence the same model input. *)
Theorem skipped_messages_are_irrelevant (raw : list ChatMessage) (blocked : gset string) :
  sanitize id blocked raw
  = sanitize id blocked (List.filter (λ m, negb (skipped blocked m)) raw)
  ∧ buildModelInput raw blocked
    = buildModelInput (List.filter (λ m, negb (skipped blocked m)) raw) blocked.
Proof.
  assert (H : sanitize id blocked raw
              = sanitize id blocked (List.filter (λ m, negb (skipped blocked m)) raw))
    by apply sanitize_from_filter_skipped.
  split; [done|]. unfold buildModelInput. by rewrite <- H.
Qed.

(** X4: a conversation without system message, blocked user content or
    guardrail notice passes the sanitiser unchanged. *)
Theorem clean_conversation_is_unchanged (raw : list ChatMessage) (blocked : gset string) :
  Forall (retained id blocked) raw → sanitize id blocked raw = raw.
Proof. intros Hall. unfold sanitize. by rewrite sanitize_from_retained. Qed.

(** X4, witness. *)
Lemma clean_conversation_is_unchanged_witness :
  sanitize id {["how to pick a lock"]} clean_history = clean_history.
Proof.
  apply clean_conversation_is_unchanged.
  repeat constructor; vm_compute; reflexivity.
Defined.

Lemma trailing_users_snoc (cleaned : list ChatMessage) (m : ChatMessage) :
  trailing_users (cleaned ++ [m])
  = if String.eqb (role m) "user" then S (trailing_users cleaned) else 0%nat.
Proof. unfold trailing_users. by rewrite reverse_snoc. Qed.

(** A notice pops one user entry off the end if there is one. *)
Lemma notice_step (blocked : gset string) (cleaned : list ChatMessage) (n : ChatMessage) :
  looksLikeGuardrailNotice n = true →
  sanitize_step id blocked cleaned n
  = take (length cleaned - Nat.min 1 (trailing_users cleaned)) cleaned.
Proof.
  intros Hn. pose proof (notice_is_assistant _ Hn) as Ha.
  unfold sanitize_step. simpl. rewrite Ha, Hn. simpl.
  destruct cleaned as [|m cleaned _] using rev_ind.
  - done.
  - unfold last_is_user. rewrite last_snoc, trailing_users_snoc, length_app. simpl.
    destruct (String.eqb (role m) "user").
    + rewrite removelast_last.
      replace (length cleaned + 1 - 1)%nat with (length cleaned) by lia.
      by rewrite take_app_length.
    + replace (length cleaned + 1 - 0)%nat with (length (cleaned ++ [m]))
        by (rewrite length_app; simpl; lia).
      by rewrite firstn_all.
Qed.

Lemma trailing_users_take (cleaned : list ChatMessage) (k : nat) :
  (k ≤ trailing_users cleaned)%nat →
  trailing_users (take (length cleaned - k) cleaned) = (trailing_users cleaned - k)%nat
  ∧ (trailing_users cleaned ≤ length cleaned)%nat.
Proof.
  revert k. induction cleaned as [|m cleaned IH] using rev_ind; intros k Hk.
  - unfold trailing_users in *. simpl in *. split; [|done].
    by replace k with 0%nat by lia.
  - rewrite trailing_users_snoc in *. rewrite length_app. simpl.
    destruct (String.eqb (role m) "user") eqn:Hm.
    + destruct k as [|k].
      * rewrite Nat.sub_0_r.
        replace (length cleaned + 1)%nat with (length (cleaned ++ [m]))
          by (rewrite length_app; simpl; lia).
        rewrite firstn_all, trailing_users_snoc, Hm.
        destruct (IH 0%nat) as [_ Hle]; [lia|].
        split; [lia|rewrite length_app; simpl; lia].
      * destruct (IH k) as [Heq Hle]; [lia|].
        replace (length cleaned + 1 - S k)%nat with (length cleaned - k)%nat by lia.
        rewrite take_app_le by lia. split; [|lia]. rewrite Heq. lia.
    + replace k with 0%nat by lia. rewrite Nat.sub_0_r.
      replace (length cleaned + 1)%nat with (length (cleaned ++ [m]))
        by (rewrite length_app; simpl; lia).
      rewrite firstn_all, trailing_users_snoc, Hm.
      split; [lia|rewrite length_app; simpl; lia].
Qed.

(** X5: consecutive guardrail notices remove one user entry each from
    the end of the accumulator, and stop at the first entry that is not
    a user entry: [k] notices remove the last [min k u] entries, where
    [u] is the number of user entries the accumulator ends with. *)
Theorem consecutive_notices_pop_trailing_users (blocked : gset string)
    (cleaned notices : list ChatMessage) :
  Forall (λ n, looksLikeGuardrailNotice n = true) notices →
  sanitize_from id blocked cleaned notices
  = take (length cleaned - Nat.min (length notices) (trailing_users cleaned)) cleaned.
Proof.
  intros Hall. revert cleaned. induction Hall as [|n notices Hn _ IH]; intros cleaned.
  - simpl. by rewrite Nat.sub_0_r, firstn_all.
  - rewrite sanitize_from_cons, IH, (notice_step _ _ _ Hn). simpl length.
    destruct (trailing_users cleaned) as [|u] eqn:Hu.
    + rewrite !Nat.min_0_r, Nat.sub_0_r, firstn_all, Hu, Nat.min_0_r, Nat.sub_0_r.
      by rewrite firstn_all.
    + destruct (trailing_users_take cleaned 1) as [Ht Hle]; [lia|].
      replace (Nat.min 1 (S u)) with 1%nat by lia.
      rewrite Ht, Hu. rewrite take_take, length_take.
      f_equal. lia.
Qed.

(** X5, witness: three notices after a history that ends with two user
    entries. *)
Lemma consecutive_notices_pop_trailing_users_witness :
  sanitize_from id ∅ [U "a"; Asst "b"; U "c"; U "d"]
    [sample_notice; sample_notice; sample_notice]
  = take (4 - Nat.min 3 (trailing_users [U "a"; Asst "b"; U "c"; U "d"]))
      [U "a"; Asst "b"; U "c"; U "d"].
Proof.
  apply (consecutive_notices_pop_trailing_users ∅ [U "a"; Asst "b"; U "c"; U "d"]
           [sample_notice; sample_notice; sample_notice]).
  repeat constructor.
Defined.

Lemma window_drop (cleaned : list ChatMessage) :
  window cleaned = drop (length cleaned - 16) cleaned.
Proof.
  unfold window, slice. destruct (16 <? length cleaned)%nat eqn:Hlt; [done|].
  apply Nat.ltb_ge in Hlt. by replace (length cleaned - 16)%nat with 0%nat by lia.
Qed.

(** X6: once the sanitised history holds 16 entries, what came before
    them has no influence on the window, hence none on the model
    input. *)
Theorem older_entries_are_irrelevant (older recent : list ChatMessage) :
  (16 ≤ length recent)%nat →
  window (older ++ recent) = window recent
  ∧ format_input (window (older ++ recent)) = format_input (window recent).
Proof.
  intros Hlen.
  assert (H : window (older ++ recent) = window recent).
  { rewrite !window_drop, length_app, drop_app_ge by lia. f_equal. lia. }
  split; [done|by rewrite H].
Qed.

(** X6, witness. *)
Lemma older_entries_are_irrelevant_witness :
  window ([Sys "s"; U "old"] ++ tail long_history) = window (tail long_history)
  ∧ format_input (window ([Sys "s"; U "old"] ++ tail long_history))
    = format_input (window (tail long_history)).
Proof.
  apply (older_entries_are_irrelevant [Sys "s"; U "old"] (tail long_history)).
  simpl. lia.
Defined.

Lemma join_snoc (sep : string) (parts : list string) (x : string) :
  parts ≠ [] → join sep (parts ++ [x]) = join sep parts +:+ sep +:+ x.
Proof.
  induction parts as [|p parts IH]; [done|]. intros _.
  destruct parts as [|q parts]; [done|].
  change (join sep ((p :: q :: parts) ++ [x]))
    with (p +:+ sep +:+ join sep ((q :: parts) ++ [x])).
  rewrite IH by done.
  change (join sep (p :: q :: parts)) with (p +:+ sep +:+ join sep (q :: parts)).
  by rewrite !append_assoc.
Qed.

(** X7: adding a user or assistant turn to a history extends the input
    by a blank line and the rendering of that turn, provided the history
    already shows an entry and is not a single user turn (which is sent
    without its role marker). *)
Theorem new_turn_extends_input (windowed : list ChatMessage) (m : ChatMessage) :
  ¬ single_user_turn windowed →
  Exists speaks windowed →
  speaks m →
  format_input (windowed ++ [m]) = format_input windowed +:+ double_newline +:+ render m.
Proof.
  intros Hns Hex Hm.
  rewrite (format_input_general windowed Hns).
  rewrite format_input_general.
  2:{ intros (m' & Heq & _). destruct windowed as [|a [|b w]]; try discriminate.
      by apply Exists_nil in Hex. }
  unfold transcript. rewrite omap_app. simpl.
  destruct (rendering_render m) as [Hr _]. rewrite Hr.
  assert (∃ text, rendering m = Some text) as [text Ht].
  { unfold rendering. destruct Hm as [-> | ->]; simpl; eauto. }
  rewrite Ht. simpl. apply join_snoc.
  intros Hnil. apply omap_rendering_nil in Hnil.
  apply Exists_exists in Hex as (x & Hx & Hsp).
  rewrite Forall_forall in Hnil. by apply (Hnil x).
Qed.

(** X7, witness. *)
Lemma new_turn_extends_input_witness :
  format_input ([U "Hi"; Asst "Hello"] ++ [U "Bye"])
  = format_input [U "Hi"; Asst "Hello"] +:+ double_newline +:+ render (U "Bye").
Proof.
  apply (new_turn_extends_input [U "Hi"; Asst "Hello"] (U "Bye")).
  - intros (m & Hm & _). discriminate Hm.
  - constructor. by left.
  - by left.
Defined.

(** * Further properties of [handleChatRequest] *)

(** What the callback of [find] throws when the search meets a [null]. *)
Lemma find_by_type_throws (tag : string) (items : list Value) :
  search_meets_no_null tag items = false →
  find_by_type tag items = Throw (TypeError_read "null" "type")
  ∨ find_by_type tag items = Throw (TypeError_read "undefined" "type").
Proof.
  induction items as [|item rest IH]; [done|].
  simpl. intros Hs. destruct (nullish item) eqn:Hn.
  - destruct item; try done; [by right|by left].
  - simpl in Hs. rewrite (getProp_present _ _ Hn). simpl. unfold marked in *.
    destruct (strict_eq_string (field item "type") tag); [done|by apply IH].
Qed.

Lemma extract_output_text_throws (reply : Value) :
  is_object reply → entries_present reply = false →
  extract_output_text reply = Throw (TypeError_read "null" "type")
  ∨ extract_output_text reply = Throw (TypeError_read "undefined" "type").
Proof.
  intros Hobj Hpresent.
  unfold extract_output_text, entries_present in *.
  rewrite getProp_present by (by destruct reply). simpl.
  destruct (field reply "output") as [| | | | |entries|]; try done.
  destruct (search_meets_no_null "message" entries) eqn:Hentries.
  2:{ destruct (find_by_type_throws _ _ Hentries) as [-> | ->]; [by left|by right]. }
  rewrite (find_by_type_present _ _ Hentries). simpl in *.
  rewrite find_marked_truthy.
  destruct (List.find (marked "message") entries) as [message|] eqn:Hfind; [|done].
  simpl. apply find_some in Hfind as [_ Hm].
  rewrite getProp_present by (by destruct message). simpl.
  destruct (field message "content") as [| | | | |parts|]; try done.
  destruct (find_by_type_throws _ _ Hpresent) as [-> | ->]; [by left|by right].
Qed.

(** The answer to an object reply, in both cases. *)
Lemma object_reply_answer (raw : IncomingBody) (AI_run : string → Completion Value)
    (reply : Value) :
  AI_run (model_input raw) = Normal reply →
  is_object reply →
  handleChatRequest (Normal raw) AI_run
  = Normal (if entries_present reply then success_response (first_yield reply)
            else generic_failure_response).
Proof.
  intros Hrun Hobj. destruct (entries_present reply) eqn:Hpresent.
  - apply (handleChatRequest_success _ _ reply); [done|].
    by apply extractResponseText_refines.
  - unfold handleChatRequest, try_block. simpl. rewrite Hrun. simpl.
    assert (extractResponseText reply
            = (responseText ← extract_output_text reply;
               if negb (truthy responseText) then extract_fallback reply
               else Normal responseText)) as ->.
    { by destruct reply. }
    by destruct (extract_output_text_throws reply Hobj Hpresent) as [-> | ->].
Qed.

Lemma first_yield_truthy (reply : Value) : truthy (first_yield reply) = true.
Proof.
  unfold first_yield.
  destruct (List.find truthy (candidates reply)) as [v|] eqn:Hf; [|done].
  by apply find_some in Hf as [_ Hv].
Qed.

(** X8: on an object reply in which the searches meet no [null], the
    response is what the first of the five shapes that yields something
    yields, in the order [output] text, [response], [content],
    [choices[0].message.content], [result.response], and the fallback
    text if none yields anything. *)
Theorem response_follows_precedence (raw : IncomingBody)
    (AI_run : string → Completion Value) (reply : Value) :
  AI_run (model_input raw) = Normal reply →
  is_object reply →
  entries_present reply = true →
  handleChatRequest (Normal raw) AI_run = Normal (success_response (first_yield reply)).
Proof.
  intros Hrun Hobj Hpresent.
  by rewrite (object_reply_answer _ _ _ Hrun Hobj), Hpresent.
Qed.

(** X8, witness: a reply with an empty [output] list, an empty
    [response], a chat-completion content and a nested result. *)
Lemma response_follows_precedence_witness :
  handleChatRequest (Normal empty_request) (λ _, Normal reply_chat_completion)
  = Normal (success_response (VStr "C")).
Proof.
  exact (response_follows_precedence empty_request (λ _, Normal reply_chat_completion)
           reply_chat_completion eq_refl I eq_refl).
Defined.

(** X9: when the search of the [output] list, or of the [content] list
    of its first message entry, meets a [null] entry, the request fails:
    the answer is the generic status 500 body, whatever else the reply
    holds. *)
Theorem null_entry_fails_the_request (raw : IncomingBody)
    (AI_run : string → Completion Value) (reply : Value) :
  AI_run (model_input raw) = Normal reply →
  is_object reply →
  entries_present reply = false →
  handleChatRequest (Normal raw) AI_run = Normal generic_failure_response.
Proof.
  intros Hrun Hobj Hpresent.
  by rewrite (object_reply_answer _ _ _ Hrun Hobj), Hpresent.
Qed.

(** X9, witness. *)
Lemma null_entry_fails_the_request_witness :
  handleChatRequest (Normal empty_request) (λ _, Normal reply_null_entry)
  = Normal generic_failure_response.
Proof.
  apply (null_entry_fails_the_request empty_request (λ _, Normal reply_null_entry)
           reply_null_entry).
  - reflexivity.
  - exact I.
  - reflexivity.
Defined.

(** X10: a status 200 answer carries the empty string as its response
    exactly when the reply is the empty string or is neither a string
    nor an object; an object reply never gives an empty response. *)
Theorem empty_response_iff (raw : IncomingBody) (AI_run : string → Completion Value)
    (reply : Value) (r : Response) :
  AI_run (model_input raw) = Normal reply →
  handleChatRequest (Normal raw) AI_run = Normal r →
  status r = 200%Z →
  field (body r) "response" = VStr EmptyString
  ↔ reply = VStr EmptyString ∨ neither_string_nor_object reply.
Proof.
  intros Hrun Hr Hstatus.
  assert (is_object reply ∨ ¬ is_object reply) as [Hobj|Hnobj]
    by (destruct reply; simpl; tauto).
  - rewrite (object_reply_answer _ _ _ Hrun Hobj) in Hr.
    destruct (entries_present reply); injection Hr as <-; [|done].
    pose proof (first_yield_truthy reply) as Ht.
    split.
    + intros Hresp. unfold field in Hresp. simpl in Hresp.
      rewrite Hresp in Ht. done.
    + intros [->|Hprim]; [done|]. by destruct reply.
  - assert (Hext : extractResponseText reply
                   = Normal (match reply with VStr s => VStr s | _ => VStr EmptyString end)).
    { destruct reply as [| |b|x|s| |]; try done.
      - by destruct b.
      - destruct x as [q|negative]; simpl; [by destruct (negb (Qeq_bool q 0))|done]. }
    rewrite (handleChatRequest_success _ _ _ _ Hrun Hext) in Hr. injection Hr as <-.
    unfold field. simpl. destruct reply; try done; split; try (by right); try done.
    + intros [= ->]. by left.
    + intros [[= ->]|[]]. done.
Qed.

(** X10, witness: the reply is the empty string. *)
Lemma empty_response_iff_witness :
  field (body (success_response (VStr EmptyString))) "response" = VStr EmptyString
  ↔ VStr EmptyString = VStr EmptyString ∨ neither_string_nor_object (VStr EmptyString).
Proof.
  apply (empty_response_iff empty_request (λ _, Normal (VStr EmptyString))
           (VStr EmptyString) (success_response (VStr EmptyString)));
    reflexivity.
Defined.

(** * Further properties of the [catch] block *)

Lemma falsy_has_no_code (g : Value) : truthy g = false → field g "code" = VUndefined.
Proof. destruct g as [| |[]|[]|[]| |]; try done. Qed.

(** What the inner [try] leaves in [gatewayError] carries the code that
    [embedded_code] reads. *)
Lemma gatewayError_code (message : string) (n : Z) :
  ∃ g, try_catch (embedded_gateway_error message) (λ _, Normal VNull) = Normal g
       ∧ truthy g && strict_eq_number (field g "code") n
         = match embedded_code message with
           | Some c => strict_eq_number c n
           | None => false
           end.
Proof.
  unfold embedded_gateway_error, embedded_code, descriptor.
  destruct (match_braces message) as [text|]; [|by exists VNull].
  destruct (JSON_parse text) as [parsed|e]; simpl; [|by exists VNull].
  destruct (nullish parsed) eqn:Hn.
  { exists VNull. by destruct parsed. }
  rewrite getProp_present by done. simpl.
  destruct (field parsed "error") as [| | | | |items|]; try (by exists VNull).
  simpl. destruct items as [|first rest]; simpl; [by exists VUndefined|].
  exists first. split; [done|].
  destruct (truthy first) eqn:Ht; [done|]. by rewrite falsy_has_no_code.
Qed.

Lemma gatewayError_is_unique (message : string) (g g' : Value) :
  try_catch (embedded_gateway_error message) (λ _, Normal VNull) = Normal g →
  try_catch (embedded_gateway_error message) (λ _, Normal VNull) = Normal g' → g = g'.
Proof. congruence. Qed.

(** The [catch] block in one equation: the answer is decided by the code
    embedded in the failure's message, if it has a message. *)
Lemma handle_error_decided (error : Value) :
  handle_error error
  = Normal (answer_for_code
              match field error "message" with
              | VStr message => embedded_code message
              | _ => None
              end).
Proof.
  unfold handle_error, gateway_error_of.
  destruct (truthy error && typeof_object error) eqn:Hobj.
  2:{ by destruct error as [| |[]|[]|[]| |]. }
  assert (Hn : nullish error = false) by (by destruct error).
  rewrite (getProp_present _ _ Hn). simpl.
  destruct (field error "message") as [| | | |message| |]; try done.
  destruct (truthy (VStr message)) eqn:Ht.
  2:{ by destruct message. }
  destruct (gatewayError_code message 2016) as (g & Hg & H2016).
  destruct (gatewayError_code message 2017) as (g' & Hg' & H2017).
  rewrite (gatewayError_is_unique _ _ _ Hg' Hg) in H2017.
  rewrite Hg. simpl. rewrite !has_code_descriptor. simpl.
  rewrite H2016, H2017. unfold answer_for_code.
  destruct (embedded_code message) as [c|]; [|done].
  destruct (strict_eq_number c 2016); [done|].
  by destruct (strict_eq_number c 2017).
Qed.

Lemma answer_for_code_cases (code : option Value) :
  answer_for_code code = prompt_blocked_response
  ∨ answer_for_code code = response_blocked_response
  ∨ answer_for_code code = generic_failure_response.
Proof.
  unfold answer_for_code. destruct code as [c|]; [|tauto].
  destruct (strict_eq_number c 2016); [tauto|].
  destruct (strict_eq_number c 2017); tauto.
Qed.

(** X11: the handler never lets an exception escape.  Whatever
    [request.json()] and the remote call do, it returns a response; its
    status is 200, 400 or 500 and it is declared as JSON. *)
Theorem handler_always_answers (request_json : Completion IncomingBody)
    (AI_run : string → Completion Value) :
  ∃ r, handleChatRequest request_json AI_run = Normal r
       ∧ (status r = 200%Z ∨ status r = 400%Z ∨ status r = 500%Z)
       ∧ json_headers r.
Proof.
  unfold handleChatRequest.
  destruct (try_block request_json AI_run) as [r|error] eqn:Htry.
  - exists r. split; [done|].
    unfold try_block in Htry.
    destruct request_json as [raw|]; [|done]. simpl in Htry.
    destruct (AI_run (model_input raw)) as [reply|]; [|done]. simpl in Htry.
    destruct (extractResponseText reply) as [text|]; [|done].
    injection Htry as <-. split; [by left|by left].
  - simpl. rewrite handle_error_decided. eexists. split; [done|].
    destruct (answer_for_code_cases
                match field error "message" with
                | VStr message => embedded_code message
                | _ => None
                end) as [-> | [-> | ->]].
    + split; [right; by left|by left].
    + split; [right; by left|by left].
    + split; [right; by right|by right].
Qed.

Lemma code_2016_is_not_2017 (c : Value) :
  strict_eq_number c 2017 = true → strict_eq_number c 2016 = false.
Proof.
  destruct c as [| | |[q|]| | |]; try done. simpl.
  intros H2017. apply Qeq_bool_iff in H2017.
  destruct (Qeq_bool q (inject_Z 2016)) eqn:H2016; [|done].
  apply Qeq_bool_iff in H2016. rewrite H2016 in H2017. discriminate.
Qed.

(** X12: a structured status 400 answer is given for the codes 2016 and
    2017 and for nothing else: the answer is the blocked-prompt response
    exactly when the failure has a message that embeds a descriptor
    whose code is 2016, and the blocked-response response exactly when
    that code is 2017. *)
Theorem structured_answers_iff (error : Value) :
  (handle_error error = Normal prompt_blocked_response
   ↔ ∃ message code, field error "message" = VStr message
                     ∧ embedded_code message = Some code
                     ∧ strict_eq_number code 2016 = true)
  ∧ (handle_error error = Normal response_blocked_response
     ↔ ∃ message code, field error "message" = VStr message
                       ∧ embedded_code message = Some code
                       ∧ strict_eq_number code 2017 = true).
Proof.
  rewrite handle_error_decided. unfold answer_for_code. split; split.
  - destruct (field error "message") as [| | | |message| |]; try done.
    destruct (embedded_code message) as [c|] eqn:Hc; [|done].
    destruct (strict_eq_number c 2016) eqn:H6; [by exists message, c|].
    by destruct (strict_eq_number c 2017).
  - intros (message & code & -> & -> & ->). done.
  - destruct (field error "message") as [| | | |message| |]; try done.
    destruct (embedded_code message) as [c|] eqn:Hc; [|done].
    destruct (strict_eq_number c 2016) eqn:H6; [done|].
    destruct (strict_eq_number c 2017) eqn:H7; [by exists message, c|done].
  - intros (message & code & -> & -> & H7).
    by rewrite (code_2016_is_not_2017 _ H7), H7.
Qed.

Lemma match_braces_needs_open (message : string) :
  occurs "{" message = false → match_braces message = None.
Proof.
  induction message as [|c message IH]; [done|].
  simpl. intros [-> Hrest]%orb_false_iff. by apply IH.
Qed.

Lemma match_braces_needs_close (message : string) :
  occurs "}" message = false → match_braces message = None.
Proof.
  induction message as [|c message IH]; [done|].
  simpl. intros [_ Hrest]%orb_false_iff.
  rewrite (upto_last_absent _ _ (dot_star_absent _ _ Hrest)), IH by done.
  by destruct (Ascii.eqb c "{").
Qed.

(** X13: a failure that is not an object, or has no text message, or
    whose message lacks an opening or a closing brace, is never taken
    for a gateway error: the answer is the generic status 500 body. *)
Theorem plain_failure_is_generic (error : Value) :
  (∀ message, field error "message" = VStr message →
              occurs "{" message = false ∨ occurs "}" message = false) →
  handle_error error = Normal generic_failure_response.
Proof.
  intros Hplain. rewrite handle_error_decided.
  destruct (field error "message") as [| | | |message| |]; try done.
  unfold embedded_code.
  destruct (Hplain message eq_refl) as [Ho|Hc].
  - by rewrite match_braces_needs_open.
  - by rewrite match_braces_needs_close.
Qed.

(** X13, witness: the failure the extractor itself throws, and a thrown
    string. *)
Lemma plain_failure_is_generic_witness :
  handle_error (TypeError_read "null" "type") = Normal generic_failure_response
  ∧ handle_error (VStr "boom {}") = Normal generic_failure_response.
Proof.
  split.
  - apply plain_failure_is_generic. intros message [= <-]. by left.
  - apply plain_failure_is_generic. intros message Hm. discriminate Hm.
Defined.

(** * Properties of [parseGatewayError] *)

Lemma descriptor_of_list_usable (v : Value) :
  descriptor_of_list v
  = match usable_first v with
    | Some first =>
        if nullish first then Throw (TypeError_read "null" "code")
        else Normal (Some (VObj [("code", field first "code");
                                 ("message", field first "message")]))
    | None => Normal None
    end.
Proof.
  destruct v as [| | | | |items|]; try done.
  destruct items as [|first rest]; [done|].
  unfold descriptor_of_list, usable_first. simpl.
  destruct (typeof_object first) eqn:Ht; [|done].
  destruct (nullish first) eqn:Hn.
  - by destruct first.
  - by rewrite !getProp_present.
Qed.

Lemma usable_first_typeof (v first : Value) :
  usable_first v = Some first → typeof_object first = true.
Proof.
  destruct v as [| | | | |[|x rest]|]; try done. simpl.
  destruct (typeof_object x) eqn:Hx; [|done]. by intros [= <-].
Qed.

Lemma first_usable_object (body first : Value) :
  first_usable body = Some first → truthy body && typeof_object body = true.
Proof.
  unfold first_usable, field. by destruct body.
Qed.

(** The body of the [try] up to the two lists, in terms of
    [first_usable]. *)
Lemma parseGatewayError_found (body first : Value) :
  first_usable body = Some first →
  parseGatewayError body
  = if nullish first then VObj []
    else VObj [("code", field first "code"); ("message", field first "message")].
Proof.
  intros Hfirst. pose proof (first_usable_object _ _ Hfirst) as Hobj.
  unfold parseGatewayError, parseGatewayError_try. rewrite Hobj.
  assert (Hn : nullish body = false) by (by destruct body).
  rewrite !(getProp_present _ _ Hn). simpl.
  unfold first_usable in Hfirst.
  rewrite (descriptor_of_list_usable (field body "error")).
  destruct (usable_first (field body "error")) as [x|].
  - injection Hfirst as ->. by destruct (nullish first).
  - simpl. rewrite (descriptor_of_list_usable (field body "errors")), Hfirst.
    by destruct (nullish first).
Qed.

(** X14: when [error], or failing that [errors], is a list whose first
    entry is an object, the result holds the [code] and the [message] of
    that entry, whatever they are and whatever the other fields of the
    body are. *)
Theorem parseGatewayError_reads_first_entry (body first : Value) :
  first_usable body = Some first →
  nullish first = false →
  parseGatewayError body
  = VObj [("code", field first "code"); ("message", field first "message")].
Proof. intros Hfirst Hn. by rewrite (parseGatewayError_found _ _ Hfirst), Hn. Qed.

(** X14, witness: [error] is a text, [errors] a list with a descriptor. *)
Lemma parseGatewayError_reads_first_entry_witness :
  parseGatewayError
    (VObj [("error", VStr "blocked");
           ("errors", VArr [VObj [("code", VNum (Finite 2016))]])])
  = VObj [("code", VNum (Finite 2016)); ("message", VUndefined)].
Proof.
  exact (parseGatewayError_reads_first_entry
           (VObj [("error", VStr "blocked");
                  ("errors", VArr [VObj [("code", VNum (Finite 2016))]])])
           (VObj [("code", VNum (Finite 2016))]) eq_refl eq_refl).
Defined.

(** X15: a [null] first entry passes the test [typeof ... === "object"],
    the read of its [code] throws, the [catch] swallows that, and the
    result is the empty object: neither the other list nor the text
    fields [error], [message] and [detail] are consulted. *)
Theorem parseGatewayError_null_entry (body : Value) :
  first_usable body = Some VNull → parseGatewayError body = VObj [].
Proof. intros Hfirst. by rewrite (parseGatewayError_found _ _ Hfirst). Qed.

(** X15, witness: a [null] in [error], a descriptor in [errors] and a
    text [message]. *)
Lemma parseGatewayError_null_entry_witness :
  parseGatewayError
    (VObj [("error", VArr [VNull]);
           ("errors", VArr [VObj [("code", VNum (Finite 2016))]]);
           ("message", VStr "blocked")])
  = VObj [].
Proof.
  exact (parseGatewayError_null_entry
           (VObj [("error", VArr [VNull]);
                  ("errors", VArr [VObj [("code", VNum (Finite 2016))]]);
                  ("message", VStr "blocked")]) eq_refl).
Defined.

(** X16: when neither list is usable, the result is the first of the
    fields [error], [message], [detail] that is a text (an empty one
    too), as the [message]; and it is the empty object when there is
    none, in particular for every body that is not an object. *)
Theorem parseGatewayError_text_fields (body : Value) :
  first_usable body = None →
  parseGatewayError body
  = match first_string body with
    | Some text => VObj [("message", VStr text)]
    | None => VObj []
    end.
Proof.
  intros Hnone. unfold parseGatewayError, parseGatewayError_try.
  destruct (truthy body && typeof_object body) eqn:Hobj.
  2:{ unfold first_string, field. by destruct body as [| |[]|[]|s| |]. }
  assert (Hn : nullish body = false) by (by destruct body).
  rewrite !(getProp_present _ _ Hn). simpl.
  unfold first_usable in Hnone.
  rewrite (descriptor_of_list_usable (field body "error")).
  destruct (usable_first (field body "error")) as [x|]; [done|]. simpl.
  rewrite (descriptor_of_list_usable (field body "errors")), Hnone. simpl.
  unfold first_string, message_of_string.
  destruct (field body "error"); try done;
    destruct (field body "message"); try done;
    destruct (field body "detail"); done.
Qed.

(** X16, witness: an empty [error] list, a numeric [message] and a text
    [detail]. *)
Lemma parseGatewayError_text_fields_witness :
  parseGatewayError
    (VObj [("error", VArr []); ("message", VNum (Finite 5)); ("detail", VStr "quota")])
  = VObj [("message", VStr "quota")].
Proof.
  exact (parseGatewayError_text_fields
           (VObj [("error", VArr []); ("message", VNum (Finite 5));
                  ("detail", VStr "quota")]) eq_refl).
Defined.

(** X17: on a parsed body whose [error] list starts with an object,
    [parseGatewayError] and the [catch] block of the handler read the
    same code. *)
Theorem parseGatewayError_agrees_with_catch (body first : Value) :
  usable_first (field body "error") = Some first →
  nullish first = false →
  field (parseGatewayError body) "code" = field (descriptor body) "code".
Proof.
  intros Husable Hn.
  assert (Hfirst : first_usable body = Some first).
  { unfold first_usable. by rewrite Husable. }
  rewrite (parseGatewayError_found _ _ Hfirst), Hn.
  unfold descriptor.
  destruct (field body "error") as [| | | | |[|x rest]|]; try done.
  simpl in Husable. destruct (typeof_object x); [|done].
  injection Husable as ->. done.
Qed.

(** X17, witness: the body the sample failure with code 2017 embeds. *)
Lemma parseGatewayError_agrees_with_catch_witness :
  field (parseGatewayError
           (VObj [("error", VArr [VObj [("code", VNum (Finite 2017));
                                        ("message", VStr "x")]])])) "code"
  = field (descriptor
             (VObj [("error", VArr [VObj [("code", VNum (Finite 2017));
                                          ("message", VStr "x")]])])) "code".
Proof.
  exact (parseGatewayError_agrees_with_catch
           (VObj [("error", VArr [VObj [("code", VNum (Finite 2017));
                                        ("message", VStr "x")]])])
           (VObj [("code", VNum (Finite 2017)); ("message", VStr "x")])
           eq_refl eq_refl).
Defined.

(** * Properties of [fetch] *)

Lemma api_chat_is_under_api : String.prefix "/api/" "/api/chat" = true.
Proof. reflexivity. Qed.

(** X18: the routes.  A path that does not start with [/api/] is served
    from the assets, whatever the method; under [/api/] every path but
    [/api/chat] is answered 404, whatever the method; [/api/chat] is
    answered 405 unless the method is POST, and then by the chat
    handler. *)
Theorem fetch_routes (pathname method : string) (ASSETS_fetch : Completion Response)
    (request_json : Completion IncomingBody) (AI_run : string → Completion Value) :
  (String.prefix "/api/" pathname = false →
   fetch pathname method ASSETS_fetch request_json AI_run = ASSETS_fetch)
  ∧ (String.prefix "/api/" pathname = true → pathname ≠ "/api/chat" →
     fetch pathname method ASSETS_fetch request_json AI_run = Normal not_found_response)
  ∧ (pathname = "/api/chat" → method ≠ "POST" →
     fetch pathname method ASSETS_fetch request_json AI_run
     = Normal method_not_allowed_response)
  ∧ (pathname = "/api/chat" → method = "POST" →
     fetch pathname method ASSETS_fetch request_json AI_run
     = handleChatRequest request_json AI_run).
Proof.
  unfold fetch. repeat split.
  - intros ->. by rewrite orb_true_r.
  - intros Hp Hne. rewrite Hp. simpl.
    destruct (String.eqb_spec pathname "/") as [->|_]; [done|]. simpl.
    by destruct (String.eqb_spec pathname "/api/chat").
  - intros -> Hm. simpl. by destruct (String.eqb_spec method "POST").
  - by intros -> ->.
Qed.

(** X18, witness. *)
Lemma fetch_routes_witness :
  fetch "/index.html" "POST" (Normal not_found_response) (Normal empty_request)
    (λ _, Normal VNull) = Normal not_found_response
  ∧ fetch "/api/chats" "POST" (Throw VNull) (Normal empty_request) (λ _, Normal VNull)
    = Normal not_found_response
  ∧ fetch "/api/chat" "GET" (Throw VNull) (Normal empty_request) (λ _, Normal VNull)
    = Normal method_not_allowed_response
  ∧ fetch "/api/chat" "POST" (Throw VNull) (Normal empty_request) (λ _, Normal VNull)
    = handleChatRequest (Normal empty_request) (λ _, Normal VNull).
Proof.
  split; [|split; [|split]].
  - by apply (proj1 (fetch_routes "/index.html" "POST" (Normal not_found_response)
                       (Normal empty_request) (λ _, Normal VNull))).
  - by apply (proj1 (proj2 (fetch_routes "/api/chats" "POST" (Throw VNull)
                              (Normal empty_request) (λ _, Normal VNull)))).
  - by apply (proj1 (proj2 (proj2 (fetch_routes "/api/chat" "GET" (Throw VNull)
                                     (Normal empty_request) (λ _, Normal VNull))))).
  - by apply (proj2 (proj2 (proj2 (fetch_routes "/api/chat" "POST" (Throw VNull)
                                     (Normal empty_request) (λ _, Normal VNull))))).
Defined.

(** X19: the request body is read and the model is called for
    POST [/api/chat] only: for any other path or method the answer does
    not depend on either. *)
Theorem model_called_for_post_chat_only (pathname method : string)
    (ASSETS_fetch : Completion Response)
    (request_json request_json' : Completion IncomingBody)
    (AI_run AI_run' : string → Completion Value) :
  pathname ≠ "/api/chat" ∨ method ≠ "POST" →
  fetch pathname method ASSETS_fetch request_json AI_run
  = fetch pathname method ASSETS_fetch request_json' AI_run'.
Proof.
  intros Hother. unfold fetch.
  destruct (String.eqb pathname "/" || negb (String.prefix "/api/" pathname)); [done|].
  destruct (String.eqb_spec pathname "/api/chat") as [Hp|_]; [|done].
  destruct (String.eqb_spec method "POST") as [Hm|_]; [|done].
  by destruct Hother.
Qed.

(** X19, witness. *)
Lemma model_called_for_post_chat_only_witness :
  fetch "/api/chat" "PUT" (Throw VNull) (Normal empty_request) (λ _, Normal (VStr "hi"))
  = fetch "/api/chat" "PUT" (Throw VNull) (Throw VNull) (λ _, Throw failure_2016).
Proof.
  apply model_called_for_post_chat_only. right. discriminate.
Defined.

(** X20: under [/api/] the worker never lets an exception escape: it
    answers with one of the statuses 200, 400, 404, 405 and 500,
    whatever the request body and the remote call do, and without
    touching the assets. *)
Theorem api_always_answers (pathname method : string)
    (ASSETS_fetch : Completion Response)
    (request_json : Completion IncomingBody) (AI_run : string → Completion Value) :
  String.prefix "/api/" pathname = true →
  ∃ r, fetch pathname method ASSETS_fetch request_json AI_run = Normal r
       ∧ (status r = 200 ∨ status r = 400 ∨ status r = 404
          ∨ status r = 405 ∨ status r = 500)%Z.
Proof.
  intros Hp. unfold fetch. rewrite Hp.
  destruct (String.eqb_spec pathname "/") as [->|_]; [done|]. simpl.
  destruct (String.eqb pathname "/api/chat").
  - destruct (String.eqb method "POST"); simpl.
    + unfold handleChatRequest.
      destruct (try_block request_json AI_run) as [r|error] eqn:Htry.
      * exists r. split; [done|]. left.
        unfold try_block in Htry.
        destruct request_json as [raw|]; [|done]. simpl in Htry.
        destruct (AI_run (model_input raw)) as [reply|]; [|done]. simpl in Htry.
        destruct (extractResponseText reply) as [text|]; [|done].
        by injection Htry as <-.
      * simpl. rewrite handle_error_decided. eexists. split; [done|].
        destruct (answer_for_code_cases
                    match field error "message" with
                    | VStr message => embedded_code message
                    | _ => None
                    end) as [-> | [-> | ->]]; simpl; tauto.
    + exists method_not_allowed_response. simpl. tauto.
  - exists not_found_response. simpl. tauto.
Qed.

(** X20, witness: the remote call throws a string. *)
Lemma api_always_answers_witness :
  ∃ r, fetch "/api/chat" "POST" (Throw VNull) (Normal empty_request)
         (λ _, Throw (VStr "boom")) = Normal r
       ∧ (status r = 200 ∨ status r = 400 ∨ status r = 404
          ∨ status r = 405 ∨ status r = 500)%Z.
Proof.
  apply api_always_answers. reflexivity.
Defined.

(** * The embedded JSON and the request body *)

Lemma occurs_app (c : ascii) (a b : string) :
  occurs c (a +:+ b) = occurs c a || occurs c b.
Proof. induction a as [|x a IH]; [done|]. simpl. by rewrite IH, orb_assoc. Qed.

Lemma dot_star_prefix (s : string) : ∃ rest, s = dot_star s +:+ rest.
Proof.
  induction s as [|c s [rest IH]]; [by exists EmptyString|].
  cbn [dot_star]. destruct (starts_line_terminator (String c s)).
  - by exists (String c s).
  - exists rest. simpl. by rewrite <- IH.
Qed.

Lemma dot_star_one_line (s : string) :
  occurs LF (dot_star s) = false ∧ occurs CR (dot_star s) = false.
Proof.
  induction s as [|c s [IHl IHc]]; [done|].
  cbn [dot_star]. destruct (starts_line_terminator (String c s)) eqn:Ht; [done|].
  simpl in *. rewrite IHl, IHc.
  apply orb_false_iff in Ht as [Ht _]. apply orb_false_iff in Ht as [-> ->]. done.
Qed.

Lemma upto_last_prefix (c : ascii) (s p : string) :
  upto_last c s = Some p →
  (∃ rest, s = p +:+ rest) ∧ ∃ inner, p = inner +:+ String c EmptyString.
Proof.
  revert p. induction s as [|x s IH]; intros p; [done|]. simpl.
  destruct (upto_last c s) as [q|].
  - intros [= <-]. destruct (IH q eq_refl) as [[rest ->] [inner ->]].
    split; [by exists rest|by exists (String x inner)].
  - destruct (Ascii.eqb_spec x c) as [->|_]; [|done]. intros [= <-].
    split; [by exists s|by exists EmptyString].
Qed.

(** X21: the text handed to [JSON.parse] is a part of the message that
    starts with an opening brace, ends with a closing brace and lies on
    one line: a descriptor that is spread over several lines is never
    read as a whole. *)
Theorem embedded_json_is_on_one_line (message text : string) :
  match_braces message = Some text →
  contains text message
  ∧ (∃ inner, text = String "{" (inner +:+ String "}" EmptyString))
  ∧ occurs LF text = false ∧ occurs CR text = false.
Proof.
  revert text. induction message as [|c message IH]; intros text; [done|].
  cbn [match_braces].
  assert (Hnext : match_braces message = Some text →
                  contains text (String c message)
                  ∧ (∃ inner, text = String "{" (inner +:+ String "}" EmptyString))
                  ∧ occurs LF text = false ∧ occurs CR text = false).
  { intros Hm. destruct (IH text Hm) as ((before & after & ->) & Hrest).
    split; [by exists (String c before), after|done]. }
  destruct (Ascii.eqb_spec c "{") as [->|_]; [|done].
  destruct (upto_last "}" (dot_star message)) as [p|] eqn:Hp; [|done].
  intros [= <-].
  destruct (upto_last_prefix _ _ _ Hp) as [[rest Hrest] [inner ->]].
  destruct (dot_star_prefix message) as [tail Htail].
  destruct (dot_star_one_line message) as [Hl Hc].
  rewrite Hrest, occurs_app in Hl, Hc.
  apply orb_false_iff in Hl as [Hl _]. apply orb_false_iff in Hc as [Hc _].
  split; [|split; [by exists inner|]].
  - exists EmptyString, (rest +:+ tail). simpl. f_equal.
    rewrite Htail at 1. rewrite Hrest. by rewrite append_assoc.
  - simpl. by rewrite Hl, Hc.
Qed.

(** X21, witness: the fragment on the second line of a message. *)
Lemma embedded_json_is_on_one_line_witness :
  contains (gateway_fragment "2016")
    ("AiError {" +:+ String LF (gateway_fragment "2016" +:+ String LF "}"))
  ∧ (∃ inner, gateway_fragment "2016" = String "{" (inner +:+ String "}" EmptyString))
  ∧ occurs LF (gateway_fragment "2016") = false
  ∧ occurs CR (gateway_fragment "2016") = false.
Proof.
  apply (embedded_json_is_on_one_line
           ("AiError {" +:+ String LF (gateway_fragment "2016" +:+ String LF "}"))).
  reflexivity.
Defined.

Lemma filter_all_skipped (blocked : gset string) (msgs : list ChatMessage) :
  Forall (λ m, skipped blocked m = true) msgs →
  List.filter (λ m, negb (skipped blocked m)) msgs = [].
Proof.
  induction 1 as [|m msgs Hm _ IH]; [done|]. simpl. by rewrite Hm.
Qed.

(** X22: a conversation made of system messages and blocked user
    messages only (the empty conversation too) gives the empty input;
    the handler does not reject it, the model is called with that empty
    input. *)
Theorem skipped_conversation_gives_empty_input (raw : IncomingBody)
    (AI_run : string → Completion Value) :
  Forall (λ m, skipped (list_to_set (default [] (blockedUserContents_field raw))) m = true)
         (default [] (messages raw)) →
  model_input raw = EmptyString
  ∧ try_block (Normal raw) AI_run
    = (aiResponse ← AI_run EmptyString;
       responseText ← extractResponseText aiResponse;
       Normal (success_response responseText)).
Proof.
  intros Hall.
  assert (Hin : model_input raw = EmptyString).
  { unfold model_input, buildModelInput. simpl.
    unfold sanitize. rewrite sanitize_from_filter_skipped, (filter_all_skipped _ _ Hall).
    done. }
  split; [done|]. unfold try_block. simpl. by rewrite Hin.
Qed.

(** X22, witness: a system prompt and a blocked question. *)
Lemma skipped_conversation_gives_empty_input_witness :
  model_input (mkBody (Some [Sys "be brief"; U "how to pick a lock"])
                 (Some ["how to pick a lock"])) = EmptyString
  ∧ try_block (Normal (mkBody (Some [Sys "be brief"; U "how to pick a lock"])
                         (Some ["how to pick a lock"]))) (λ _, Normal (VStr "hi"))
    = (aiResponse ← Normal (VStr "hi");
       responseText ← extractResponseText aiResponse;
       Normal (success_response responseText)).
Proof.
  apply (skipped_conversation_gives_empty_input
           (mkBody (Some [Sys "be brief"; U "how to pick a lock"])
              (Some ["how to pick a lock"])) (λ _, Normal (VStr "hi"))).
  repeat constructor; vm_compute; reflexivity.
Defined.

(** X23: the block list is used as a set: two lists with the same
    elements, in any order and with any repetitions, give the same model
    input. *)
Theorem block_list_is_a_set (msgs : option (list ChatMessage))
    (blocked blocked' : list string) :
  (∀ text, text ∈ blocked ↔ text ∈ blocked') →
  model_input (mkBody msgs (Some blocked)) = model_input (mkBody msgs (Some blocked')).
Proof.
  intros Hsame. unfold model_input. simpl.
  assert ((list_to_set blocked : gset string) = list_to_set blocked') as ->; [|done].
  apply set_eq. intros text. rewrite !elem_of_list_to_set. apply Hsame.
Qed.

(** X23, witness. *)
Lemma block_list_is_a_set_witness :
  model_input (mkBody (Some [U "a"; U "b"; U "c"]) (Some ["a"; "b"; "a"]))
  = model_input (mkBody (Some [U "a"; U "b"; U "c"]) (Some ["b"; "a"])).
Proof.
  apply block_list_is_a_set. intros text.
  rewrite !elem_of_cons, !elem_of_nil. tauto.
Defined.

(** X24: sanitising a sanitised history again, with the same block set,
    changes nothing. *)
Theorem sanitize_idempotent (raw : list ChatMessage) (blocked : gset string) :
  sanitize id blocked (sanitize id blocked raw) = sanitize id blocked raw.
Proof.
  unfold sanitize at 1. rewrite sanitize_from_retained; [done|].
  apply sanitize_all_retained.
Qed.
